(** * Concise display hooks: the common-context diff summarizer

    A shallow embedding of the rendering helpers of
    [amplifier_module_hooks_concise_display/__init__.py]:
    [_truncate], [_format_diff_line], [_find_common_context] and
    [_render_diff_block], together with the Python list and string
    primitives they rely on (indexing with negative indices, slicing,
    [str.split], [str.replace], [str.strip], f-string formatting of
    integers); and of [_first_line], [_render_write_preview],
    [_parse_agent_from_session_id], [_format_compact_number], the
    session part of [ToolContext.from_data], the result phase of
    [_render_bash], and the methods [_format_line] and
    [_get_indent_prefix] of [ConciseDisplayHooks].

    Python integers are [Z]; a Python [str] is a list of Unicode code
    points; a raised exception ([IndexError], [ValueError],
    [OverflowError]) is [None]. *)

From Stdlib Require Import ZArith String Ascii DecimalString DecimalPos
  DecimalZ.
From stdpp Require Import base decidable option numbers list.
From Equations Require Import Equations.

Local Open Scope Z_scope.

(** ** Python strings *)

Module Py.

(** A code point.  Python's [len], indexing and slicing of a [str]
    count code points, not bytes. *)
Definition char : Type := N.

Definition str : Type := list char.

(** An ASCII-only literal of the source. *)
Definition lit (s : String.string) : str :=
  map N_of_ascii (list_ascii_of_string s).

Definition NL : char := 10%N.
Definition SPACE : char := 32%N.

(** The one-character string ["…"] (U+2026). *)
Definition ELLIPSIS : str := [8230%N].

(** [len(l)] *)
Definition len {A} (l : list A) : Z := Z.of_nat (length l).

(** [l[i]]: a negative index counts from the end; out of range raises
    [IndexError]. *)
Definition getitem {A} (l : list A) (i : Z) : option A :=
  let j := if bool_decide (i < 0) then i + len l else i in
  if bool_decide (0 <= j < len l) then l !! Z.to_nat j else None.

(** How a slice bound is read against a sequence of length [n]: a
    negative bound counts from the end, and every bound is clamped to
    [0 .. n]. *)
Definition slice_bound (n i : Z) : Z :=
  if bool_decide (i < 0) then Z.max (i + n) 0 else Z.min i n.

(** [l[lo:hi]], either bound possibly omitted. *)
Definition slice {A} (l : list A) (lo hi : option Z) : list A :=
  let n := len l in
  let start := from_option (slice_bound n) 0 lo in
  let stop := from_option (slice_bound n) n hi in
  drop (Z.to_nat start) (take (Z.to_nat stop) l).

(** [text.split("\n")]: the pieces between the separators; never empty. *)
Fixpoint split_nl (text : str) : list str :=
  match text with
  | [] => [[]]
  | c :: rest =>
      if bool_decide (c = NL) then [] :: split_nl rest
      else match split_nl rest with
           | piece :: pieces => (c :: piece) :: pieces
           | [] => [[c]]
           end
  end.

(** [text.replace("\n", " ")] *)
Definition replace_nl_space (text : str) : str :=
  map (fun c => if bool_decide (c = NL) then SPACE else c) text.

(** [str.isspace] on one code point: the characters [str.strip()]
    removes. *)
Definition isspace (c : char) : bool :=
  let c := Z.of_N c in
  bool_decide (9 <= c <= 13) || bool_decide (28 <= c <= 32)
  || bool_decide (c = 133) || bool_decide (c = 160)
  || bool_decide (c = 5760) || bool_decide (8192 <= c <= 8202)
  || bool_decide (c = 8232) || bool_decide (c = 8233)
  || bool_decide (c = 8239) || bool_decide (c = 8287)
  || bool_decide (c = 12288).

Fixpoint lstrip (text : str) : str :=
  match text with
  | [] => []
  | c :: rest => if isspace c then lstrip rest else text
  end.

Definition rstrip (text : str) : str := rev (lstrip (rev text)).

(** [text.strip()] *)
Definition strip (text : str) : str := rstrip (lstrip text).

(** [f"{n}"] for an integer [n]. *)
Definition format_int (n : Z) : str :=
  lit (NilZero.string_of_int (Z.to_int n)).

(** [for x in xs: lines.append(f(x))] *)
Definition for_append {A B} (f : A -> B) (xs : list A) (lines : list B)
  : list B :=
  foldl (fun acc x => acc ++ [f x]) lines xs.

End Py.

Import Py.

(** ** Rendering helpers *)

(** [_truncate(text, max_len)], source lines 123-128. *)
Definition _truncate (text : str) (max_len : Z) : str :=
  let text := strip (replace_nl_space text) in
  if bool_decide (len text <= max_len) then text
  else slice text None (Some (max_len - 1)) ++ ELLIPSIS.

(** [_format_diff_line(line, prefix, color, max_len)], source lines
    207-210. *)
Definition _format_diff_line (line prefix color : str) (max_len : Z) : str :=
  let truncated := _truncate line (max_len - 2) in
  lit "[bold " ++ color ++ lit "]" ++ prefix ++ lit " " ++ truncated
  ++ lit "[/bold " ++ color ++ lit "]".

(** ** The common prefix and suffix loops of [_find_common_context] *)

(** The first [while] loop (source lines 249-250), entered with the
    current value of [prefix_len]; the result is the value of
    [prefix_len] when the loop exits. *)
Equations? prefix_loop (old_lines new_lines : list str)
    (min_len prefix_len : Z) : option Z
  by wf (Z.to_nat (min_len - prefix_len)) lt :=
  prefix_loop old_lines new_lines min_len prefix_len
    with decide (prefix_len < min_len) => {
    | right _ := Some prefix_len
    | left _ with getitem old_lines prefix_len,
                  getitem new_lines prefix_len => {
      | Some a, Some b with decide (a = b) => {
        | left _ := prefix_loop old_lines new_lines min_len (prefix_len + 1)
        | right _ := Some prefix_len }
      | _, _ := None } }.
Proof. lia. Qed.

(** The second [while] loop (source lines 254-256), entered with the
    current value of [suffix_len]. *)
Equations? suffix_loop (old_lines new_lines : list str)
    (min_len prefix_len suffix_len : Z) : option Z
  by wf (Z.to_nat (min_len - prefix_len - suffix_len)) lt :=
  suffix_loop old_lines new_lines min_len prefix_len suffix_len
    with decide (suffix_len < min_len - prefix_len) => {
    | right _ := Some suffix_len
    | left _ with getitem old_lines (- (suffix_len + 1)),
                  getitem new_lines (- (suffix_len + 1)) => {
      | Some a, Some b with decide (a = b) => {
        | left _ :=
            suffix_loop old_lines new_lines min_len prefix_len (suffix_len + 1)
        | right _ := Some suffix_len }
      | _, _ := None } }.
Proof. lia. Qed.

(** [prefix_len] after source lines 247-250. *)
Definition common_prefix_len (old_lines new_lines : list str) : option Z :=
  let prefix_len := 0 in
  let min_len := Z.min (len old_lines) (len new_lines) in
  prefix_loop old_lines new_lines min_len prefix_len.

(** [suffix_len] after source lines 253-256, given [prefix_len]. *)
Definition common_suffix_len (old_lines new_lines : list str)
    (prefix_len : Z) : option Z :=
  let suffix_len := 0 in
  let min_len := Z.min (len old_lines) (len new_lines) in
  suffix_loop old_lines new_lines min_len prefix_len suffix_len.

(** [_find_common_context(old_lines, new_lines)], source lines 241-268. *)
Definition _find_common_context (old_lines new_lines : list str)
  : option (list str * list str * list str * list str * list str) :=
  prefix_len ← common_prefix_len old_lines new_lines;
  suffix_len ← common_suffix_len old_lines new_lines prefix_len;
  let leading := slice old_lines None (Some prefix_len) in
  let trailing :=
    if bool_decide (suffix_len > 0)
    then slice old_lines (Some (len old_lines - suffix_len)) None
    else [] in
  let old_end :=
    if bool_decide (suffix_len > 0) then len old_lines - suffix_len
    else len old_lines in
  let new_end :=
    if bool_decide (suffix_len > 0) then len new_lines - suffix_len
    else len new_lines in
  let old_changed := slice old_lines (Some prefix_len) (Some old_end) in
  let new_changed := slice new_lines (Some prefix_len) (Some new_end) in
  Some (leading, old_changed, new_changed, trailing, []).

(** ** The diff block *)

(** The per-side cap on changed lines, [max_diff_lines = 4] (source
    line 288). *)
Definition max_diff_lines : Z := 4.

(** Source lines 282-283: the leading context after the window is
    applied. *)
Definition limit_leading (context_lines : Z) (leading : list str)
  : list str :=
  if bool_decide (len leading > context_lines)
  then slice leading (Some (- context_lines)) None
  else leading.

(** Source lines 284-285: the trailing context after the window is
    applied. *)
Definition limit_trailing (context_lines : Z) (trailing : list str)
  : list str :=
  if bool_decide (len trailing > context_lines)
  then slice trailing None (Some context_lines)
  else trailing.

(** The four parts [_render_diff_block] goes on to display. *)
Record plan : Type := Plan {
  leading : list str;
  old_changed : list str;
  new_changed : list str;
  trailing : list str }.

(** Source lines 275-285 of [_render_diff_block]: split both texts into
    lines, find the common context and apply the context window. *)
Definition render_plan (old_str new_str : str) (context_lines : Z)
  : option plan :=
  let old_lines := split_nl old_str in
  let new_lines := split_nl new_str in
  match _find_common_context old_lines new_lines with
  | Some (leading, old_changed, new_changed, trailing, _) =>
      let leading := limit_leading context_lines leading in
      let trailing := limit_trailing context_lines trailing in
      Some (Plan leading old_changed new_changed trailing)
  | None => None
  end.

(** The display line of an unchanged line (source lines 294 and 310). *)
Definition context_line (max_width : Z) (line : str) : str :=
  lit "[dim]  " ++ _truncate line (max_width - 2) ++ lit "[/dim]".

(** The display line of a deletion (source line 298). *)
Definition deletion_line (max_width : Z) (line : str) : str :=
  _format_diff_line line (lit "-") (lit "red") max_width.

(** The display line of an addition (source line 304). *)
Definition addition_line (max_width : Z) (line : str) : str :=
  _format_diff_line line (lit "+") (lit "green") max_width.

(** The elision marker of the deletions (source line 300). *)
Definition deletion_marker (count : Z) : str :=
  lit "[red]  ... (+" ++ format_int count ++ lit ")[/red]".

(** The elision marker of the additions (source line 306). *)
Definition addition_marker (count : Z) : str :=
  lit "[green]  ... (+" ++ format_int count ++ lit ")[/green]".

(** Source lines 287-312 of [_render_diff_block]: the display lines of
    the four parts, appended to [lines] in order. *)
Definition render_lines (p : plan) (max_width : Z) : list str :=
  let old_truncated := bool_decide (len (old_changed p) > max_diff_lines) in
  let new_truncated := bool_decide (len (new_changed p) > max_diff_lines) in
  let lines := [] in
  let lines := for_append (context_line max_width) (leading p) lines in
  let lines :=
    for_append (deletion_line max_width)
      (slice (old_changed p) None (Some max_diff_lines)) lines in
  let lines :=
    if old_truncated
    then lines ++ [deletion_marker (len (old_changed p) - max_diff_lines)]
    else lines in
  let lines :=
    for_append (addition_line max_width)
      (slice (new_changed p) None (Some max_diff_lines)) lines in
  let lines :=
    if new_truncated
    then lines ++ [addition_marker (len (new_changed p) - max_diff_lines)]
    else lines in
  let lines := for_append (context_line max_width) (trailing p) lines in
  lines.

(** [_render_diff_block(old_str, new_str, max_width, context_lines)],
    source lines 271-312. *)
Definition _render_diff_block (old_str new_str : str)
    (max_width context_lines : Z) : option (list str) :=
  match render_plan old_str new_str context_lines with
  | Some p => Some (render_lines p max_width)
  | None => None
  end.

(** The defaults of the source: [max_width = 60], [context_lines = 2]. *)
Definition default_max_width : Z := 60.
Definition default_context_lines : Z := 2.

(** Joins lines with ["\n"], to write the multi-line inputs of the
    examples. *)
Definition unlines (ls : list str) : str :=
  match ls with
  | [] => []
  | l :: ls => l ++ flat_map (fun x => NL :: x) ls
  end.

(** The character after the opening bracket of a display line: [d] for
    a context line ([[dim]]), [b] for a changed line ([[bold ..]]), [r]
    and [g] for the two elision markers ([[red]], [[green]]). *)
Definition tag (line : str) : option char := line !! 1%nat.

(** ** Other helpers of the module *)

Definition UNDERSCORE : char := 95%N.
Definition COLON : char := 58%N.

(** [sep in text], for a one-character [sep]. *)
Definition contains (sep : char) (text : str) : bool :=
  bool_decide (sep ∈ text).

(** [text.startswith(prefix)] *)
Definition startswith (prefix text : str) : bool :=
  bool_decide (take (length prefix) text = prefix).

(** [text.rsplit(sep, 1)] for a one-character [sep]: the text before
    and the text after the last [sep], or the text alone when it holds
    no [sep]. *)
Fixpoint rsplit1 (sep : char) (text : str) : list str :=
  match text with
  | [] => [[]]
  | c :: rest =>
      match rsplit1 sep rest with
      | [before; after] => [c :: before; after]
      | _ => if bool_decide (c = sep) then [[]; rest] else [c :: rest]
      end
  end.

(** [text.lstrip(c)] and [text.rstrip(c)] for a one-character [c]. *)
Fixpoint lstrip_char (c : char) (text : str) : str :=
  match text with
  | [] => []
  | d :: rest => if bool_decide (d = c) then lstrip_char c rest else text
  end.

Definition rstrip_char (c : char) (text : str) : str :=
  rev (lstrip_char c (rev text)).

(** [sep.join(pieces)] *)
Fixpoint join (sep : str) (pieces : list str) : str :=
  match pieces with
  | [] => []
  | [piece] => piece
  | piece :: rest => piece ++ sep ++ join sep rest
  end.

(** The number of decimal digits up to which the interpreter converts
    an integer to text ([sys.int_info.default_max_str_digits]), and the
    least absolute value beyond it. *)
Definition int_max_str_digits : Z := 4300.
Definition int_str_bound : Z := 10 ^ int_max_str_digits.

(** [str(n)] and [f"{n}"] for an integer [n] of any size: an integer of
    more than [int_max_str_digits] digits raises [ValueError]. *)
Definition format_int_checked (n : Z) : option str :=
  if bool_decide (Z.abs n < int_str_bound) then Some (format_int n)
  else None.

(** [_first_line(text, max_len)], source lines 131-136. *)
Definition _first_line (text : str) (max_len : Z) : option (str * Z) :=
  let lines := split_nl (strip text) in
  line0 ← getitem lines 0;
  let first := _truncate line0 max_len in
  let remaining := len lines - 1 in
  Some (first, remaining).

(** The display line of a previewed line (source lines 190, 194, 202). *)
Definition preview_line (max_width : Z) (line : str) : str :=
  lit "[dim]  " ++ _truncate line max_width ++ lit "[/dim]".

(** The elision line of the preview (source line 198). *)
Definition preview_marker (elided : Z) : str :=
  lit "[dim]  ... (" ++ format_int elided ++ lit " lines elided) ...[/dim]".

(** [_render_write_preview(content, max_width)], source lines
    178-204. *)
Definition _render_write_preview (content : str) (max_width : Z)
  : list str :=
  let lines := [] in
  let content_lines := split_nl content in
  let total := len content_lines in
  let first_n := 7 in
  let last_n := 2 in
  if bool_decide (total <= first_n + last_n) then
    for_append (preview_line max_width) content_lines lines
  else
    let lines :=
      for_append (preview_line max_width)
        (slice content_lines None (Some first_n)) lines in
    let elided := total - first_n - last_n in
    let lines := lines ++ [preview_marker elided] in
    let lines :=
      for_append (preview_line max_width)
        (slice content_lines (Some (- last_n)) None) lines in
    lines.

(** [_parse_agent_from_session_id(session_id)], source lines 610-617.
    The outer [None] is an [IndexError], the inner one the value
    [None] of the source. *)
Definition _parse_agent_from_session_id (session_id : str)
  : option (option str) :=
  if bool_decide (session_id = []) || negb (contains UNDERSCORE session_id)
  then Some None
  else
    let parts := rsplit1 UNDERSCORE session_id in
    if bool_decide (len parts = 2) then
      part1 ← getitem parts 1;
      if contains COLON part1 then Some (Some part1) else Some None
    else Some None.

(** The part of [ToolContext.from_data] that reads the session id,
    source lines 95-102: the values of [is_sub_agent] and
    [agent_name]. *)
Definition from_data_session (session_id : str)
  : option (bool * option str) :=
  let is_sub_agent :=
    contains UNDERSCORE session_id
    && negb (startswith (lit "session_") session_id) in
  let agent_name := None in
  if is_sub_agent then
    let parts := rsplit1 UNDERSCORE session_id in
    if bool_decide (len parts = 2) then
      part1 ← getitem parts 1;
      Some (is_sub_agent, Some part1)
    else Some (is_sub_agent, agent_name)
  else Some (is_sub_agent, agent_name).

(** [Config], source lines 63-72. *)
Record Config : Type := {
  enabled : bool;
  max_param_len : Z;
  max_result_len : Z;
  indent_sub_agents : bool;
  show_agent_name : bool;
  show_thinking : bool;
  show_token_usage : bool }.

(** [Icon], source lines 46-56, the four icons of [_format_line]. *)
Module Icon.
Definition TOOL : str := [8594%N].
Definition OK : str := [10003%N].
Definition FAIL : str := [10007%N].
Definition WARN : str := lit "!".
End Icon.

Section tool_context.

(** The dynamically typed values ([dict], [Any]) a context carries;
    the functions below do not look into them. *)
Variable value : Type.

(** [ToolContext], source lines 79-88. *)
Record ToolContext : Type := {
  tool_name : str;
  tool_input : value;
  result : value;
  session_id : str;
  is_sub_agent : bool;
  agent_name : option str;
  phase : str }.

(** The truth value of [ctx.agent_name], a [str | None]. *)
Definition agent_name_set (ctx : ToolContext) : bool :=
  match agent_name ctx with
  | Some (_ :: _) => true
  | _ => false
  end.

(** [ctx.agent_name] inside an f-string. *)
Definition agent_name_text (ctx : ToolContext) : str :=
  match agent_name ctx with
  | Some name => name
  | None => lit "None"
  end.

(** [ConciseDisplayHooks._format_line(ctx, content, status)], source
    lines 627-664; [config] is [self.config]. *)
Definition _format_line (config : Config) (ctx : ToolContext)
    (content status : str) : str :=
  let parts : list str := [] in
  let parts :=
    if is_sub_agent ctx && indent_sub_agents config then
      let parts := parts ++ [lit "  "] in
      if show_agent_name config && agent_name_set ctx
      then parts ++ [lit "[dim]\[" ++ agent_name_text ctx ++ lit "][/dim] "]
      else parts
    else parts in
  let parts :=
    if bool_decide (phase ctx = lit "call") then
      let parts :=
        parts ++ [lit "[blue]" ++ Icon.TOOL ++ lit " " ++ tool_name ctx
                  ++ lit ":[/blue]"] in
      if bool_decide (content <> [])
      then parts ++ [lit " [dim]" ++ content ++ lit "[/dim]"]
      else parts
    else
      let parts :=
        if bool_decide (status = lit "fail")
        then parts ++ [lit "[red]" ++ Icon.FAIL ++ lit "[/red]"]
        else if bool_decide (status = lit "warn")
        then parts ++ [lit "[yellow]" ++ Icon.WARN ++ lit "[/yellow]"]
        else parts ++ [lit "[green]" ++ Icon.OK ++ lit "[/green]"] in
      if bool_decide (content <> []) then
        if bool_decide (status = lit "fail")
        then parts ++ [lit " [red]" ++ content ++ lit "[/red]"]
        else if bool_decide (status = lit "warn")
        then parts ++ [lit " [yellow]" ++ content ++ lit "[/yellow]"]
        else parts ++ [lit " [dim]" ++ content ++ lit "[/dim]"]
      else parts in
  join [] parts.

(** [ConciseDisplayHooks._get_indent_prefix(ctx)], source lines
    691-697. *)
Definition _get_indent_prefix (config : Config) (ctx : ToolContext) : str :=
  if is_sub_agent ctx && indent_sub_agents config then
    if show_agent_name config && agent_name_set ctx
    then lit "  [dim]\[" ++ agent_name_text ctx ++ lit "][/dim] "
    else lit "  "
  else [].

End tool_context.

Arguments tool_name {value}.
Arguments tool_input {value}.
Arguments result {value}.
Arguments session_id {value}.
Arguments is_sub_agent {value}.
Arguments agent_name {value}.
Arguments phase {value}.
Arguments agent_name_set {value}.
Arguments agent_name_text {value}.
Arguments _format_line {value}.
Arguments _get_indent_prefix {value}.

Section compact_number.

(** [f"{n / d:.{k}f}"]: the quotient of two integers as a float, in
    fixed-point notation with [k] decimals; [None] when the division
    raises [OverflowError], the quotient being too large for a float.
    The function below is modelled for an arbitrary such formatting. *)
Variable format_fixed : Z -> Z -> Z -> option str.

(** [_format_compact_number(n)], source lines 601-607. *)
Definition _format_compact_number (n : Z) : option str :=
  if bool_decide (n >= 1000000) then
    if bool_decide (n >= 1000000) then
      millions ← format_fixed n 1000000 1;
      Some (rstrip_char 46%N (rstrip_char 48%N (millions ++ lit "M"))
            ++ lit "M")
    else
      thousands ← format_fixed n 1000 0;
      Some (thousands ++ lit "k")
  else if bool_decide (n >= 1000) then
    thousands ← format_fixed n 1000 0;
    Some (thousands ++ lit "k")
  else format_int_checked n.

End compact_number.

(** The result phase of [_render_bash], source lines 350-376, for a
    result dict whose ["returncode"] is the integer [rc] and whose
    ["stdout"] and ["stderr"] are the strings given.  The count
    [remaining] is a number of lines of [stdout], far below the digit
    limit of the integer formatting. *)
Definition _render_bash_result (config : Config) (rc : Z)
    (stdout stderr : str) : option (str * str) :=
  if bool_decide (rc <> 0) then
    let err :=
      strip (if bool_decide (stderr <> []) then stderr
             else if bool_decide (stdout <> []) then stdout
             else lit "failed") in
    '(first, _) ← _first_line err (max_result_len config - 10);
    rc_text ← format_int_checked rc;
    Some (lit "exit " ++ rc_text ++ lit ": " ++ first, lit "fail")
  else
    let output := strip stdout in
    if bool_decide (output = []) then Some (lit "(no output)", [])
    else
      let lines := split_nl output in
      let max_lines := 3 in
      let shown_lines := slice lines None (Some max_lines) in
      let remaining := len lines - max_lines in
      let result_lines :=
        map (fun line => _truncate line (max_result_len config)) shown_lines in
      let result := join ([NL] ++ lit "  ") result_lines in
      if bool_decide (remaining > 0)
      then Some (result ++ [NL] ++ lit "  (+" ++ format_int remaining
                 ++ lit " more)", [])
      else Some (result, []).

(** ** Vocabulary of the statements *)

(** A text that does not start with white space. *)
Definition lstripped (text : str) : Prop :=
  match text with
  | [] => True
  | c :: _ => isspace c = false
  end.

(** A text that neither starts nor ends with white space. *)
Definition stripped (text : str) : Prop :=
  lstripped text /\ lstripped (rev text).

(** The number of newlines of a text. *)
Definition count_nl (text : str) : Z :=
  len (filter (fun c => c = NL) text).

(** The integer a text denotes in decimal notation, read by the
    decimal parser of the standard library: digits [0] to [9] with an
    optional leading minus sign; [None] for any other text. *)
Definition decimal_value (digits : str) : option Z :=
  if forallb (fun c => bool_decide (c < 256)%N) digits
  then Z.of_int
         <$> NilZero.int_of_string
               (string_of_list_ascii (map ascii_of_N digits))
  else None.

(** * Properties *)

(** ** The examples of the specification *)

Example find_common_context_ex1 :
  _find_common_context [lit "a"; lit "b"; lit "c"] [lit "a"; lit "X"; lit "c"]
  = Some ([lit "a"], [lit "b"], [lit "X"], [lit "c"], []).
Proof. vm_compute. reflexivity. Qed.

Example find_common_context_ex2 :
  _find_common_context [lit "a"; lit "b"] [lit "a"; lit "b"; lit "c"]
  = Some ([lit "a"; lit "b"], [], [lit "c"], [], []).
Proof. vm_compute. reflexivity. Qed.

Example render_diff_block_ex1 :
  _render_diff_block (unlines [lit "a"; lit "b"; lit "c"])
    (unlines [lit "a"; lit "X"; lit "c"])
    default_max_width default_context_lines
  = Some [lit "[dim]  a[/dim]"; lit "[bold red]- b[/bold red]";
          lit "[bold green]+ X[/bold green]"; lit "[dim]  c[/dim]"].
Proof. vm_compute. reflexivity. Qed.

Example truncate_ex1 :
  _truncate (lit "abcdefgh") 5 = lit "abcd" ++ ELLIPSIS.
Proof. vm_compute. reflexivity. Qed.

(** ["a\nb"] as code points, and its lines. *)
Example unlines_ex :
  unlines [lit "a"; lit "b"] = [97; 10; 98]%N
  /\ split_nl (unlines [lit "a"; lit "b"]) = [lit "a"; lit "b"].
Proof. split; reflexivity. Qed.

(** Ten distinct lines replaced by ten other lines: four lines and a
    marker counting the six others, on each side. *)
Example render_diff_block_elision :
  _render_diff_block
    (unlines [lit "o0"; lit "o1"; lit "o2"; lit "o3"; lit "o4";
              lit "o5"; lit "o6"; lit "o7"; lit "o8"; lit "o9"])
    (unlines [lit "n0"; lit "n1"; lit "n2"; lit "n3"; lit "n4";
              lit "n5"; lit "n6"; lit "n7"; lit "n8"; lit "n9"])
    default_max_width default_context_lines
  = Some [lit "[bold red]- o0[/bold red]"; lit "[bold red]- o1[/bold red]";
          lit "[bold red]- o2[/bold red]"; lit "[bold red]- o3[/bold red]";
          lit "[red]  ... (+6)[/red]";
          lit "[bold green]+ n0[/bold green]";
          lit "[bold green]+ n1[/bold green]";
          lit "[bold green]+ n2[/bold green]";
          lit "[bold green]+ n3[/bold green]";
          lit "[green]  ... (+6)[/green]"].
Proof. vm_compute. reflexivity. Qed.

(** ** Python lists: indexing and slicing *)

Section py_lists.
Context {A : Type}.
Implicit Types (l : list A) (i n : Z).

Lemma len_nonneg l : 0 <= len l.
Proof. unfold len. lia. Qed.

Lemma len_app l k : len (l ++ k) = len l + len k.
Proof. unfold len. rewrite length_app. lia. Qed.

Lemma getitem_nonneg l i :
  0 <= i < len l -> getitem l i = l !! Z.to_nat i.
Proof.
  intros Hi. unfold getitem.
  rewrite (bool_decide_eq_false_2 (i < 0)) by lia.
  rewrite bool_decide_eq_true_2 by lia. reflexivity.
Qed.

Lemma getitem_neg l i :
  - len l <= i < 0 -> getitem l i = l !! Z.to_nat (len l + i).
Proof.
  intros Hi. unfold getitem.
  rewrite (bool_decide_eq_true_2 (i < 0)) by lia.
  rewrite bool_decide_eq_true_2 by lia.
  f_equal. lia.
Qed.

(** Counting from the end with a negative index or with
    [len(l) - 1 - j] reads the same element. *)
Lemma getitem_from_end l j :
  0 <= j < len l -> getitem l (- (j + 1)) = getitem l (len l - 1 - j).
Proof.
  intros Hj. rewrite getitem_neg, getitem_nonneg by lia. f_equal. lia.
Qed.

Lemma getitem_is_Some l i : 0 <= i < len l -> is_Some (getitem l i).
Proof.
  intros Hi. rewrite getitem_nonneg by lia.
  apply lookup_lt_is_Some. unfold len in Hi. lia.
Qed.

Lemma getitem_neg_is_Some l i : - len l <= i < 0 -> is_Some (getitem l i).
Proof.
  intros Hi. rewrite getitem_neg by lia.
  apply lookup_lt_is_Some. unfold len in *. lia.
Qed.

Lemma slice_to l n :
  0 <= n -> slice l None (Some n) = take (Z.to_nat n) l.
Proof.
  intros Hn. unfold slice, slice_bound. cbn.
  rewrite bool_decide_eq_false_2 by lia. rewrite drop_0.
  destruct (Z.le_gt_cases n (len l)).
  - rewrite Z.min_l by lia. reflexivity.
  - rewrite Z.min_r by lia. unfold len in *.
    rewrite !take_ge by lia. reflexivity.
Qed.

Lemma slice_from l n :
  0 <= n -> slice l (Some n) None = drop (Z.to_nat n) l.
Proof.
  intros Hn. unfold slice, slice_bound. cbn.
  rewrite bool_decide_eq_false_2 by lia.
  rewrite (take_ge l) by (unfold len; lia).
  destruct (Z.le_gt_cases n (len l)).
  - rewrite Z.min_l by lia. reflexivity.
  - rewrite Z.min_r by lia. unfold len in *.
    rewrite !drop_ge by lia. reflexivity.
Qed.

Lemma slice_from_to l i n :
  0 <= i -> 0 <= n ->
  slice l (Some i) (Some n) = drop (Z.to_nat i) (take (Z.to_nat n) l).
Proof.
  intros Hi Hn. unfold slice, slice_bound. cbn.
  rewrite !bool_decide_eq_false_2 by lia.
  assert (Hstop : take (Z.to_nat (Z.min n (len l))) l = take (Z.to_nat n) l).
  { destruct (Z.le_gt_cases n (len l)).
    - rewrite Z.min_l by lia. reflexivity.
    - rewrite Z.min_r by lia. unfold len in *.
      rewrite !take_ge by lia. reflexivity. }
  rewrite Hstop.
  destruct (Z.le_gt_cases i (len l)).
  - rewrite Z.min_l by lia. reflexivity.
  - rewrite Z.min_r by lia.
    rewrite !drop_ge; [reflexivity | |];
      rewrite length_take; unfold len in *; lia.
Qed.

(** [l[-n:]] for a positive [n]: the last [n] elements. *)
Lemma slice_last l n :
  0 < n -> slice l (Some (- n)) None = drop (Z.to_nat (len l - n)) l.
Proof.
  intros Hn. unfold slice, slice_bound. cbn.
  rewrite bool_decide_eq_true_2 by lia.
  rewrite (take_ge l) by (unfold len; lia).
  f_equal. lia.
Qed.

(** [l[-0:]] is [l[0:]], the whole list. *)
Lemma slice_last_zero l : slice l (Some (- 0)) None = l.
Proof.
  unfold slice, slice_bound. cbn.
  rewrite Z.min_l by apply len_nonneg. cbn.
  apply take_ge. unfold len. lia.
Qed.

Lemma for_append_map {B} (f : A -> B) l (lines : list B) :
  for_append f l lines = lines ++ map f l.
Proof.
  unfold for_append. revert lines.
  induction l as [|x l IH]; intros lines; cbn.
  - rewrite app_nil_r. reflexivity.
  - rewrite IH, <- app_assoc. reflexivity.
Qed.

End py_lists.

(** ** The two loops of [_find_common_context] *)

(** The first loop exits, without an [IndexError], at the first index
    in [prefix_len .. min_len] where the two lists differ, or at
    [min_len]. *)
Lemma prefix_loop_spec (old_lines new_lines : list str)
    (min_len prefix_len : Z) :
  0 <= prefix_len <= min_len ->
  min_len <= len old_lines -> min_len <= len new_lines ->
  exists r, prefix_loop old_lines new_lines min_len prefix_len = Some r
    /\ prefix_len <= r <= min_len
    /\ (forall i, prefix_len <= i < r ->
          getitem old_lines i = getitem new_lines i)
    /\ (r < min_len -> getitem old_lines r <> getitem new_lines r).
Proof.
  funelim (prefix_loop old_lines new_lines min_len prefix_len);
    intros Hp Ho Hn.
  - exists prefix_len. repeat split; lia.
  - destruct (getitem_is_Some old_lines prefix_len) as [x Hx]; [lia|].
    congruence.
  - destruct (getitem_is_Some new_lines prefix_len) as [x Hx]; [lia|].
    congruence.
  - match goal with
    | IH : _ -> _ -> _ -> exists _, _ |- _ =>
        destruct IH as (r & Hr & Hle & Hsame & Hstop); [lia | lia | lia |]
    end.
    exists r. split; [exact Hr|]. split; [lia|]. split; [|exact Hstop].
    intros i Hi. destruct (decide (i = prefix_len)) as [->|Hne].
    + congruence.
    + apply Hsame. lia.
  - exists prefix_len. split; [reflexivity|]. split; [lia|].
    split; [intros i Hi; lia|]. intros _. congruence.
Qed.

(** The second loop exits, without an [IndexError], at the first
    distance from the end in [suffix_len .. min_len - prefix_len] where
    the two lists differ, or at [min_len - prefix_len]. *)
Lemma suffix_loop_spec (old_lines new_lines : list str)
    (min_len prefix_len suffix_len : Z) :
  0 <= prefix_len -> 0 <= suffix_len <= min_len - prefix_len ->
  min_len <= len old_lines -> min_len <= len new_lines ->
  exists r,
    suffix_loop old_lines new_lines min_len prefix_len suffix_len = Some r
    /\ suffix_len <= r <= min_len - prefix_len
    /\ (forall j, suffix_len <= j < r ->
          getitem old_lines (- (j + 1)) = getitem new_lines (- (j + 1)))
    /\ (r < min_len - prefix_len ->
          getitem old_lines (- (r + 1)) <> getitem new_lines (- (r + 1))).
Proof.
  funelim (suffix_loop old_lines new_lines min_len prefix_len suffix_len);
    intros Hp Hs Ho Hn.
  - exists suffix_len. repeat split; lia.
  - destruct (getitem_neg_is_Some old_lines (- (suffix_len + 1)))
      as [x Hx]; [lia|]. congruence.
  - destruct (getitem_neg_is_Some new_lines (- (suffix_len + 1)))
      as [x Hx]; [lia|]. congruence.
  - match goal with
    | IH : _ -> _ -> _ -> _ -> exists _, _ |- _ =>
        destruct IH as (r & Hr & Hle & Hsame & Hstop);
          [lia | lia | lia | lia |]
    end.
    exists r. split; [exact Hr|]. split; [lia|]. split; [|exact Hstop].
    intros j Hj. destruct (decide (j = suffix_len)) as [->|Hne].
    + congruence.
    + apply Hsame. lia.
  - exists suffix_len. split; [reflexivity|]. split; [lia|].
    split; [intros j Hj; lia|]. intros _. congruence.
Qed.

(** What [common_prefix_len] computes. *)
Lemma common_prefix_len_spec (old_lines new_lines : list str) :
  exists p, common_prefix_len old_lines new_lines = Some p
    /\ 0 <= p <= Z.min (len old_lines) (len new_lines)
    /\ (forall i, 0 <= i < p -> getitem old_lines i = getitem new_lines i)
    /\ (p < Z.min (len old_lines) (len new_lines) ->
          getitem old_lines p <> getitem new_lines p).
Proof.
  unfold common_prefix_len.
  pose proof (len_nonneg old_lines). pose proof (len_nonneg new_lines).
  apply prefix_loop_spec; lia.
Qed.

(** What [common_suffix_len] computes, for a [prefix_len] the first
    loop can return. *)
Lemma common_suffix_len_spec (old_lines new_lines : list str) (p : Z) :
  0 <= p <= Z.min (len old_lines) (len new_lines) ->
  exists s, common_suffix_len old_lines new_lines p = Some s
    /\ 0 <= s <= Z.min (len old_lines) (len new_lines) - p
    /\ (forall j, 0 <= j < s ->
          getitem old_lines (- (j + 1)) = getitem new_lines (- (j + 1)))
    /\ (s < Z.min (len old_lines) (len new_lines) - p ->
          getitem old_lines (- (s + 1)) <> getitem new_lines (- (s + 1))).
Proof.
  intros Hp. unfold common_suffix_len. apply suffix_loop_spec; lia.
Qed.

(** ** The parts returned by [_find_common_context] *)

Section agree.
Context {A : Type}.
Implicit Types (l k : list A).

Lemma take_agree l k (p : nat) :
  (forall i : nat, (i < p)%nat -> l !! i = k !! i) -> take p l = take p k.
Proof.
  intros Hsame. apply list_eq. intros i.
  destruct (decide (i < p)%nat) as [Hi|Hi].
  - rewrite !lookup_take_lt by lia. apply Hsame, Hi.
  - rewrite !lookup_take_ge by lia. reflexivity.
Qed.

Lemma drop_agree l k (s : nat) :
  (s <= length l)%nat -> (s <= length k)%nat ->
  (forall j : nat, (j < s)%nat ->
     l !! (length l - 1 - j)%nat = k !! (length k - 1 - j)%nat) ->
  drop (length l - s) l = drop (length k - s) k.
Proof.
  intros Hl Hk Hsame. apply list_eq. intros i. rewrite !lookup_drop.
  destruct (decide (i < s)%nat) as [Hi|Hi].
  - specialize (Hsame (s - 1 - i)%nat ltac:(lia)).
    replace (length l - s + i)%nat with (length l - 1 - (s - 1 - i))%nat
      by lia.
    replace (length k - s + i)%nat with (length k - 1 - (s - 1 - i))%nat
      by lia.
    exact Hsame.
  - rewrite !lookup_ge_None_2 by lia. reflexivity.
Qed.

Lemma take_drop_take l (p q : nat) :
  (p <= q)%nat -> take p l ++ drop p (take q l) = take q l.
Proof.
  intros Hpq. rewrite <- (take_drop p (take q l)) at 2.
  rewrite take_take, Nat.min_l by lia. reflexivity.
Qed.

End agree.

(** The summary the claims below are read off from: both loops return,
    the windows they find agree and do not overlap, each stops at a
    mismatch or at its bound, and the five results are the slices of the
    source at these two lengths. *)
Lemma find_common_context_spec (old_lines new_lines : list str) :
  exists p s,
    common_prefix_len old_lines new_lines = Some p
    /\ common_suffix_len old_lines new_lines p = Some s
    /\ 0 <= p /\ 0 <= s
    /\ p + s <= Z.min (len old_lines) (len new_lines)
    /\ (forall i, 0 <= i < p -> getitem old_lines i = getitem new_lines i)
    /\ (p < Z.min (len old_lines) (len new_lines) ->
          getitem old_lines p <> getitem new_lines p)
    /\ (forall j, 0 <= j < s ->
          getitem old_lines (- (j + 1)) = getitem new_lines (- (j + 1)))
    /\ (s < Z.min (len old_lines) (len new_lines) - p ->
          getitem old_lines (- (s + 1)) <> getitem new_lines (- (s + 1)))
    /\ _find_common_context old_lines new_lines
       = Some (take (Z.to_nat p) old_lines,
               drop (Z.to_nat p) (take (Z.to_nat (len old_lines - s)) old_lines),
               drop (Z.to_nat p) (take (Z.to_nat (len new_lines - s)) new_lines),
               drop (Z.to_nat (len old_lines - s)) old_lines,
               []).
Proof.
  destruct (common_prefix_len_spec old_lines new_lines)
    as (p & Hp & Hpb & Hpsame & Hpstop).
  destruct (common_suffix_len_spec old_lines new_lines p Hpb)
    as (s & Hs & Hsb & Hssame & Hsstop).
  exists p, s. repeat (split; [first [assumption | lia]|]).
  unfold _find_common_context. rewrite Hp. cbn. rewrite Hs. cbn.
  rewrite slice_to by lia.
  destruct (decide (s > 0)) as [Hpos|Hzero].
  - rewrite !bool_decide_eq_true_2 by lia.
    rewrite slice_from, !slice_from_to by lia. reflexivity.
  - rewrite !bool_decide_eq_false_2 by lia.
    rewrite !slice_from_to by (try apply len_nonneg; lia).
    replace s with 0 by lia. rewrite !Z.sub_0_r.
    unfold len. rewrite !Nat2Z.id, drop_all. reflexivity.
Qed.

Lemma prefix_agree_take (old_lines new_lines : list str) (p : Z) :
  0 <= p <= Z.min (len old_lines) (len new_lines) ->
  (forall i, 0 <= i < p -> getitem old_lines i = getitem new_lines i) ->
  take (Z.to_nat p) old_lines = take (Z.to_nat p) new_lines.
Proof.
  intros Hp Hsame. apply take_agree. intros i Hi.
  specialize (Hsame (Z.of_nat i) ltac:(lia)).
  rewrite !getitem_nonneg in Hsame by lia.
  rewrite Nat2Z.id in Hsame. exact Hsame.
Qed.

Lemma suffix_agree_drop (old_lines new_lines : list str) (s : Z) :
  0 <= s <= Z.min (len old_lines) (len new_lines) ->
  (forall j, 0 <= j < s ->
     getitem old_lines (- (j + 1)) = getitem new_lines (- (j + 1))) ->
  drop (Z.to_nat (len old_lines - s)) old_lines
  = drop (Z.to_nat (len new_lines - s)) new_lines.
Proof.
  intros Hs Hsame.
  replace (Z.to_nat (len old_lines - s))
    with (length old_lines - Z.to_nat s)%nat by (unfold len; lia).
  replace (Z.to_nat (len new_lines - s))
    with (length new_lines - Z.to_nat s)%nat by (unfold len; lia).
  apply drop_agree; [unfold len in Hs; lia ..|].
  intros j Hj. specialize (Hsame (Z.of_nat j) ltac:(lia)).
  rewrite !getitem_neg in Hsame by lia.
  unfold len in Hsame.
  replace (Z.to_nat (Z.of_nat (length old_lines) + - (Z.of_nat j + 1)))
    with (length old_lines - 1 - j)%nat in Hsame by lia.
  replace (Z.to_nat (Z.of_nat (length new_lines) + - (Z.of_nat j + 1)))
    with (length new_lines - 1 - j)%nat in Hsame by lia.
  exact Hsame.
Qed.

(** ** Claims about [_find_common_context] *)

(** C1 (round-trip law).  For every pair of line sequences,
    [_find_common_context] returns four parts that reassemble exactly:
    leading ++ old_changed ++ trailing is [old_lines], and
    leading ++ new_changed ++ trailing is [new_lines], although
    leading and trailing are sliced from [old_lines] only. *)
Theorem find_common_context_round_trip (old_lines new_lines : list str) :
  exists leading old_changed new_changed trailing,
    _find_common_context old_lines new_lines
    = Some (leading, old_changed, new_changed, trailing, [])
    /\ leading ++ old_changed ++ trailing = old_lines
    /\ leading ++ new_changed ++ trailing = new_lines.
Proof.
  destruct (find_common_context_spec old_lines new_lines)
    as (p & s & _ & _ & Hp & Hs & Hsum & Hpsame & _ & Hssame & _ & Hres).
  do 4 eexists. split; [exact Hres|]. split.
  - rewrite app_assoc, take_drop_take by lia. apply take_drop.
  - rewrite (prefix_agree_take old_lines new_lines p) by (assumption || lia).
    rewrite (suffix_agree_drop old_lines new_lines s) by (assumption || lia).
    rewrite app_assoc, take_drop_take by lia. apply take_drop.
Qed.

(** C2 (maximality of the common windows).  The [prefix_len] computed by
    [_find_common_context] is the largest [p <= min(len(old_lines),
    len(new_lines))] with [old_lines[i] == new_lines[i]] for all
    [i < p], and the computed [suffix_len] is the largest
    [s <= min(len(old_lines), len(new_lines)) - prefix_len] with
    [old_lines[len(old_lines)-1-j] == new_lines[len(new_lines)-1-j]] for
    all [j < s]; these are the lengths of the leading and the trailing
    context returned. *)
Theorem common_windows_maximal (old_lines new_lines : list str) :
  let min_len := Z.min (len old_lines) (len new_lines) in
  exists p s,
    common_prefix_len old_lines new_lines = Some p
    /\ common_suffix_len old_lines new_lines p = Some s
    /\ (exists leading old_changed new_changed trailing,
          _find_common_context old_lines new_lines
          = Some (leading, old_changed, new_changed, trailing, [])
          /\ len leading = p /\ len trailing = s)
    /\ 0 <= p <= min_len
    /\ (forall i, 0 <= i < p -> getitem old_lines i = getitem new_lines i)
    /\ (forall p', p' <= min_len ->
          (forall i, 0 <= i < p' ->
             getitem old_lines i = getitem new_lines i) ->
          p' <= p)
    /\ 0 <= s <= min_len - p
    /\ (forall j, 0 <= j < s ->
          getitem old_lines (len old_lines - 1 - j)
          = getitem new_lines (len new_lines - 1 - j))
    /\ (forall s', s' <= min_len - p ->
          (forall j, 0 <= j < s' ->
             getitem old_lines (len old_lines - 1 - j)
             = getitem new_lines (len new_lines - 1 - j)) ->
          s' <= s).
Proof.
  intros min_len. subst min_len.
  destruct (find_common_context_spec old_lines new_lines)
    as (p & s & Hpl & Hsl & Hp & Hs & Hsum & Hpsame & Hpstop & Hssame
        & Hsstop & Hres).
  exists p, s. split; [exact Hpl|]. split; [exact Hsl|]. split.
  { do 4 eexists. split; [exact Hres|]. unfold len in *.
    rewrite length_take, length_drop. lia. }
  split; [lia|]. split; [exact Hpsame|]. split.
  { intros p' Hp' Hsame'. destruct (Z.le_gt_cases p' p) as [|Hgt]; [lia|].
    exfalso. apply Hpstop; [lia|]. apply Hsame'. lia. }
  split; [lia|]. split.
  { intros j Hj. rewrite <- !getitem_from_end by lia. apply Hssame, Hj. }
  intros s' Hs' Hsame'. destruct (Z.le_gt_cases s' s) as [|Hgt]; [lia|].
  exfalso. apply Hsstop; [lia|].
  rewrite !getitem_from_end by lia. apply Hsame'. lia.
Qed.

(** C3 (no overlap).  For every pair of line sequences the [prefix_len]
    and [suffix_len] computed by [_find_common_context], the lengths of
    the leading and trailing context it returns, satisfy
    [prefix_len + suffix_len <= min(len(old_lines), len(new_lines))]. *)
Theorem common_windows_no_overlap (old_lines new_lines : list str) :
  exists p s,
    common_prefix_len old_lines new_lines = Some p
    /\ common_suffix_len old_lines new_lines p = Some s
    /\ p + s <= Z.min (len old_lines) (len new_lines)
    /\ exists leading old_changed new_changed trailing,
         _find_common_context old_lines new_lines
         = Some (leading, old_changed, new_changed, trailing, [])
         /\ len leading = p /\ len trailing = s
         /\ len leading + len trailing
            <= Z.min (len old_lines) (len new_lines).
Proof.
  destruct (find_common_context_spec old_lines new_lines)
    as (p & s & Hpl & Hsl & Hp & Hs & Hsum & _ & _ & _ & _ & Hres).
  exists p, s. split; [exact Hpl|]. split; [exact Hsl|]. split; [exact Hsum|].
  do 4 eexists. split; [exact Hres|]. unfold len in *.
  rewrite length_take, length_drop. lia.
Qed.

(** Comparing a list with itself: everything is leading context. *)
Lemma find_common_context_same (x : list str) :
  _find_common_context x x = Some (x, [], [], [], []).
Proof.
  destruct (find_common_context_spec x x)
    as (p & s & _ & _ & Hp & Hs & Hsum & _ & Hpstop & _ & _ & Hres).
  rewrite Z.min_id in *.
  assert (p = len x) as ->.
  { destruct (Z.lt_ge_cases p (len x)) as [Hlt|]; [|lia].
    exfalso. apply (Hpstop Hlt). reflexivity. }
  assert (s = 0) as -> by lia.
  rewrite Hres, Z.sub_0_r. unfold len. rewrite Nat2Z.id.
  rewrite take_ge, drop_all by lia. reflexivity.
Qed.

(** C7 (empty-text splitting).  Splitting a text on ["\n"] never gives
    an empty sequence, and the empty string splits to [[""]]; so for
    [""] against ["hello"] the prefix and suffix lengths are 0,
    [old_changed] is [[""]] and [new_changed] is [["hello"]]. *)
Theorem split_nl_nonempty_and_empty_old :
  (forall text, split_nl text <> [])
  /\ split_nl [] = [[]]
  /\ split_nl (lit "hello") = [lit "hello"]
  /\ common_prefix_len (split_nl []) (split_nl (lit "hello")) = Some 0
  /\ common_suffix_len (split_nl []) (split_nl (lit "hello")) 0 = Some 0
  /\ _find_common_context (split_nl []) (split_nl (lit "hello"))
     = Some ([], [[]], [lit "hello"], [], []).
Proof.
  split.
  { intros text. induction text as [|c rest IH]; cbn; [discriminate|].
    destruct (bool_decide (c = NL)); [discriminate|].
    destruct (split_nl rest); discriminate. }
  repeat split; vm_compute; reflexivity.
Qed.

(** ** The context window *)

(** [trailing[:context_lines]] keeps the first [context_lines] lines. *)
Lemma limit_trailing_spec (context_lines : Z) (trailing : list str) :
  0 <= context_lines ->
  limit_trailing context_lines trailing
  = take (Z.to_nat context_lines) trailing.
Proof.
  intros Hc. unfold limit_trailing. case_bool_decide as Hlen.
  - apply slice_to, Hc.
  - rewrite take_ge; [reflexivity|]. unfold len in Hlen. lia.
Qed.

(** [leading[-context_lines:]] keeps the last [context_lines] lines when
    [context_lines] is positive. *)
Lemma limit_leading_pos (context_lines : Z) (leading : list str) :
  0 < context_lines ->
  limit_leading context_lines leading
  = drop (Z.to_nat (len leading - context_lines)) leading.
Proof.
  intros Hc. unfold limit_leading. case_bool_decide as Hlen.
  - apply slice_last, Hc.
  - replace (Z.to_nat (len leading - context_lines)) with 0%nat by lia.
    reflexivity.
Qed.

(** With [context_lines = 0] the slice is [leading[-0:]], which is all
    of [leading]. *)
Lemma limit_leading_zero (leading : list str) :
  limit_leading 0 leading = leading.
Proof.
  unfold limit_leading. case_bool_decide; [|reflexivity].
  apply slice_last_zero.
Qed.

Lemma len_limit_trailing (context_lines : Z) (trailing : list str) :
  0 <= context_lines ->
  len (limit_trailing context_lines trailing)
  = Z.min (len trailing) context_lines.
Proof.
  intros Hc. rewrite limit_trailing_spec by exact Hc.
  unfold len. rewrite length_take. lia.
Qed.

Lemma len_limit_leading_pos (context_lines : Z) (leading : list str) :
  0 < context_lines ->
  len (limit_leading context_lines leading)
  = Z.min (len leading) context_lines.
Proof.
  intros Hc. rewrite limit_leading_pos by exact Hc.
  unfold len. rewrite length_drop. lia.
Qed.

(** [render_plan] always returns: its changed lines are those of
    [_find_common_context], its context the limited one. *)
Lemma render_plan_spec (old_str new_str : str) (context_lines : Z) :
  exists leading old_changed new_changed trailing,
    _find_common_context (split_nl old_str) (split_nl new_str)
    = Some (leading, old_changed, new_changed, trailing, [])
    /\ render_plan old_str new_str context_lines
       = Some (Plan (limit_leading context_lines leading)
                 old_changed new_changed
                 (limit_trailing context_lines trailing)).
Proof.
  destruct (find_common_context_spec (split_nl old_str) (split_nl new_str))
    as (p & s & _ & _ & _ & _ & _ & _ & _ & _ & _ & Hres).
  do 4 eexists. split; [exact Hres|].
  unfold render_plan. rewrite Hres. reflexivity.
Qed.

(** The display lines, block by block. *)
Lemma render_lines_blocks (p : plan) (max_width : Z) :
  render_lines p max_width
  = map (context_line max_width) (leading p)
    ++ (map (deletion_line max_width)
          (take (Z.to_nat max_diff_lines) (old_changed p))
        ++ if bool_decide (len (old_changed p) > max_diff_lines)
           then [deletion_marker (len (old_changed p) - max_diff_lines)]
           else [])
    ++ (map (addition_line max_width)
          (take (Z.to_nat max_diff_lines) (new_changed p))
        ++ if bool_decide (len (new_changed p) > max_diff_lines)
           then [addition_marker (len (new_changed p) - max_diff_lines)]
           else [])
    ++ map (context_line max_width) (trailing p).
Proof.
  unfold render_lines. rewrite !slice_to by (unfold max_diff_lines; lia).
  do 2 case_bool_decide; rewrite !for_append_map; cbn [app];
    rewrite ?app_nil_r, <- ?app_assoc; reflexivity.
Qed.

(** ** Telling the kinds of display line apart *)

Lemma tag_context_line w x : tag (context_line w x) = Some 100%N.
Proof. reflexivity. Qed.

Lemma tag_deletion_line w x : tag (deletion_line w x) = Some 98%N.
Proof. reflexivity. Qed.

Lemma tag_addition_line w x : tag (addition_line w x) = Some 98%N.
Proof. reflexivity. Qed.

Lemma tag_deletion_marker k : tag (deletion_marker k) = Some 114%N.
Proof. reflexivity. Qed.

Lemma tag_addition_marker k : tag (addition_marker k) = Some 103%N.
Proof. reflexivity. Qed.

Lemma tag_map_neq {A} (f : A -> str) (xs : list A) (t : char) (line : str) :
  (forall x, tag (f x) <> Some t) -> tag line = Some t ->
  line ∉ map f xs.
Proof.
  intros Hf Hline Hin. apply list_elem_of_In, in_map_iff in Hin.
  destruct Hin as (x & <- & _). exact (Hf x Hline).
Qed.

(** A line with tag [t] is in none of the blocks of lines with other
    tags. *)
Ltac other_tag t :=
  apply (tag_map_neq _ _ t); [|reflexivity];
  intros ?;
  rewrite ?tag_context_line, ?tag_deletion_line, ?tag_addition_line;
  discriminate.

Lemma deletion_marker_absent (p : plan) (max_width k : Z) :
  len (old_changed p) <= max_diff_lines ->
  deletion_marker k ∉ render_lines p max_width.
Proof.
  intros Hlen. rewrite render_lines_blocks.
  rewrite (bool_decide_eq_false_2 (len (old_changed p) > _)) by lia.
  rewrite !elem_of_app. intros [Hin|[[Hin|Hin]|[[Hin|Hin]|Hin]]];
    revert Hin; try other_tag 114%N.
  - apply elem_of_nil.
  - case_bool_decide; [|apply elem_of_nil].
    intros Hin%list_elem_of_singleton.
    apply (f_equal tag) in Hin. discriminate Hin.
Qed.

Lemma addition_marker_absent (p : plan) (max_width k : Z) :
  len (new_changed p) <= max_diff_lines ->
  addition_marker k ∉ render_lines p max_width.
Proof.
  intros Hlen. rewrite render_lines_blocks.
  rewrite (bool_decide_eq_false_2 (len (new_changed p) > _)) by lia.
  rewrite !elem_of_app. intros [Hin|[[Hin|Hin]|[[Hin|Hin]|Hin]]];
    revert Hin; try other_tag 103%N.
  - case_bool_decide; [|apply elem_of_nil].
    intros Hin%list_elem_of_singleton.
    apply (f_equal tag) in Hin. discriminate Hin.
  - apply elem_of_nil.
Qed.

(** ** The texts of the display lines *)

Lemma to_int_not_nil (n : Z) :
  Z.to_int n <> Decimal.Pos Decimal.Nil
  /\ Z.to_int n <> Decimal.Neg Decimal.Nil.
Proof.
  destruct n as [|q|q]; cbn; split; try discriminate;
    intros [= H]; exact (Unsigned.to_uint_nonnil q H).
Qed.

Lemma decimal_value_lit (s : String.string) :
  decimal_value (lit s) = Z.of_int <$> NilZero.int_of_string s.
Proof.
  unfold decimal_value, lit.
  rewrite <- (string_of_list_ascii_of_string s) at 3.
  generalize (list_ascii_of_string s). intros l.
  assert (Hall : forallb (fun c => bool_decide (c < 256)%N)
                   (map N_of_ascii l) = true).
  { induction l as [|a l IH]; [reflexivity|]. cbn.
    rewrite IH, bool_decide_eq_true_2 by apply N_ascii_bounded.
    reflexivity. }
  rewrite Hall. clear Hall. do 3 f_equal.
  induction l as [|a l IH]; [reflexivity|]. cbn.
  rewrite ascii_N_embedding, IH. reflexivity.
Qed.

(** The decimal text of an integer denotes that integer. *)
Lemma decimal_value_format_int (n : Z) : decimal_value (format_int n) = Some n.
Proof.
  unfold format_int. rewrite decimal_value_lit.
  destruct (to_int_not_nil n) as [Hpos Hneg].
  rewrite (NilZero.isi _ Hpos Hneg). cbn. rewrite DecimalZ.of_to.
  reflexivity.
Qed.

Lemma context_line_text (max_width : Z) (line : str) :
  context_line max_width line
  = lit "[dim]  " ++ _truncate line (max_width - 2) ++ lit "[/dim]".
Proof. reflexivity. Qed.

Lemma deletion_line_text (max_width : Z) (line : str) :
  deletion_line max_width line
  = lit "[bold red]- " ++ _truncate line (max_width - 2)
    ++ lit "[/bold red]".
Proof. reflexivity. Qed.

Lemma addition_line_text (max_width : Z) (line : str) :
  addition_line max_width line
  = lit "[bold green]+ " ++ _truncate line (max_width - 2)
    ++ lit "[/bold green]".
Proof. reflexivity. Qed.

(** A line with tag [t] is no element of a block of lines whose tags
    all differ from [t]. *)
Ltac foreign_tag :=
  match goal with
  | Htag : tag ?line = Some ?t |- ?line ∈ map _ _ -> False =>
      apply (tag_map_neq _ _ t); [|exact Htag];
      intros ?;
      rewrite ?tag_context_line, ?tag_deletion_line, ?tag_addition_line;
      discriminate
  | Htag : tag ?line = Some _ |- ?line ∈ [] -> False => apply elem_of_nil
  | Htag : tag ?line = Some _ |- ?line ∈ [_] -> False =>
      let Hin := fresh in
      intros Hin%list_elem_of_singleton; rewrite Hin in Htag;
      discriminate Htag
  end.

(** With no more deletions than the cap, no line of the output opens
    with [[r]: there is no line in the red of the deletion marker. *)
Lemma red_line_absent (p : plan) (max_width : Z) (line : str) :
  tag line = Some 114%N ->
  len (old_changed p) <= max_diff_lines ->
  line ∉ render_lines p max_width.
Proof.
  intros Htag Hlen. rewrite render_lines_blocks.
  rewrite (bool_decide_eq_false_2 (len (old_changed p) > _)) by lia.
  rewrite !elem_of_app. intros [Hin|[[Hin|Hin]|[[Hin|Hin]|Hin]]];
    revert Hin; try foreign_tag.
  case_bool_decide; foreign_tag.
Qed.

(** The same for the additions and the green of their marker. *)
Lemma green_line_absent (p : plan) (max_width : Z) (line : str) :
  tag line = Some 103%N ->
  len (new_changed p) <= max_diff_lines ->
  line ∉ render_lines p max_width.
Proof.
  intros Htag Hlen. rewrite render_lines_blocks.
  rewrite (bool_decide_eq_false_2 (len (new_changed p) > _)) by lia.
  rewrite !elem_of_app. intros [Hin|[[Hin|Hin]|[[Hin|Hin]|Hin]]];
    revert Hin; try foreign_tag.
  case_bool_decide; foreign_tag.
Qed.

(** ** Claims about [_render_diff_block] *)

(** C5 (elision accounting).  On each side independently: when the
    number of changed lines exceeds the cap [max_diff_lines], the block
    shown is exactly the first [max_diff_lines] lines followed by one
    elision marker, whose text is [[red]  ... (+N)[/red]] (green for
    the additions) with [N] the decimal notation of the number of
    changed lines minus the cap, which is strictly positive; when it
    does not exceed the cap, all the changed lines are shown and no
    line of the whole output is an elision marker of that side, nor
    any line in its colour.  A changed line is shown as its truncated
    text after [- ] or [+ ], in bold red or bold green. *)
Theorem elision_accounting (old_str new_str : str)
    (max_width context_lines : Z) :
  exists lead dels adds trail p lines deletions additions,
    _find_common_context (split_nl old_str) (split_nl new_str)
    = Some (lead, dels, adds, trail, [])
    /\ render_plan old_str new_str context_lines = Some p
    /\ old_changed p = dels /\ new_changed p = adds
    /\ _render_diff_block old_str new_str max_width context_lines
       = Some lines
    /\ lines = map (context_line max_width) (leading p)
               ++ deletions ++ additions
               ++ map (context_line max_width) (trailing p)
    /\ (len dels > max_diff_lines ->
          deletions
          = map (deletion_line max_width)
              (take (Z.to_nat max_diff_lines) dels)
            ++ [deletion_marker (len dels - max_diff_lines)]
          /\ 0 < len dels - max_diff_lines
          /\ exists digits,
               deletion_marker (len dels - max_diff_lines)
               = lit "[red]  ... (+" ++ digits ++ lit ")[/red]"
               /\ decimal_value digits = Some (len dels - max_diff_lines))
    /\ (len dels <= max_diff_lines ->
          deletions = map (deletion_line max_width) dels
          /\ (forall k, deletion_marker k ∉ lines)
          /\ forall text, lit "[red]" ++ text ∉ lines)
    /\ (len adds > max_diff_lines ->
          additions
          = map (addition_line max_width)
              (take (Z.to_nat max_diff_lines) adds)
            ++ [addition_marker (len adds - max_diff_lines)]
          /\ 0 < len adds - max_diff_lines
          /\ exists digits,
               addition_marker (len adds - max_diff_lines)
               = lit "[green]  ... (+" ++ digits ++ lit ")[/green]"
               /\ decimal_value digits = Some (len adds - max_diff_lines))
    /\ (len adds <= max_diff_lines ->
          additions = map (addition_line max_width) adds
          /\ (forall k, addition_marker k ∉ lines)
          /\ forall text, lit "[green]" ++ text ∉ lines)
    /\ (forall line,
          deletion_line max_width line
          = lit "[bold red]- " ++ _truncate line (max_width - 2)
            ++ lit "[/bold red]")
    /\ (forall line,
          addition_line max_width line
          = lit "[bold green]+ " ++ _truncate line (max_width - 2)
            ++ lit "[/bold green]").
Proof.
  destruct (render_plan_spec old_str new_str context_lines)
    as (lead & dels & adds & trail & Hsplit & Hplan).
  eexists lead, dels, adds, trail, _, _, _, _.
  split; [exact Hsplit|]. split; [exact Hplan|].
  split; [reflexivity|]. split; [reflexivity|].
  split; [unfold _render_diff_block; rewrite Hplan; reflexivity|].
  split; [apply render_lines_blocks|]. cbn [old_changed new_changed].
  split; [intros Hlen|split; [intros Hlen|split; [intros Hlen|split;
    [intros Hlen|split; [apply deletion_line_text|apply addition_line_text]]]]].
  - rewrite bool_decide_eq_true_2 by assumption.
    split; [reflexivity|]. split; [lia|].
    exists (format_int (len dels - max_diff_lines)).
    split; [reflexivity | apply decimal_value_format_int].
  - rewrite bool_decide_eq_false_2 by lia. rewrite app_nil_r.
    split; [rewrite take_ge; [reflexivity|];
            unfold len, max_diff_lines in *; lia|].
    split; [intros k; apply deletion_marker_absent; assumption|].
    intros text. apply red_line_absent; [reflexivity | assumption].
  - rewrite bool_decide_eq_true_2 by assumption.
    split; [reflexivity|]. split; [lia|].
    exists (format_int (len adds - max_diff_lines)).
    split; [reflexivity | apply decimal_value_format_int].
  - rewrite bool_decide_eq_false_2 by lia. rewrite app_nil_r.
    split; [rewrite take_ge; [reflexivity|];
            unfold len, max_diff_lines in *; lia|].
    split; [intros k; apply addition_marker_absent; assumption|].
    intros text. apply green_line_absent; [reflexivity | assumption].
Qed.

(** C4 (identity).  For every line sequence [x], comparing [x] with
    itself gives no changed lines on either side, a leading context
    equal to all of [x] and an empty trailing context.  In particular
    two empty input strings, which split to [[""]], give a plan with one
    empty leading-context line and no changed lines, displayed as one
    context line. *)
Theorem find_common_context_identity (x : list str)
    (max_width context_lines : Z) :
  0 <= context_lines ->
  _find_common_context x x = Some (x, [], [], [], [])
  /\ split_nl [] = [[]]
  /\ render_plan [] [] context_lines = Some (Plan [[]] [] [] [])
  /\ _render_diff_block [] [] max_width context_lines
     = Some [context_line max_width []]
  /\ _render_diff_block [] [] default_max_width default_context_lines
     = Some [lit "[dim]  [/dim]"].
Proof.
  intros Hc. split; [apply find_common_context_same|].
  split; [reflexivity|].
  assert (Hplan : render_plan [] [] context_lines = Some (Plan [[]] [] [] [])).
  { unfold render_plan. cbn [split_nl].
    rewrite find_common_context_same. f_equal. f_equal.
    - destruct (decide (context_lines = 0)) as [->|Hne].
      + apply limit_leading_zero.
      + unfold limit_leading. rewrite bool_decide_eq_false_2; [reflexivity|].
        unfold len. cbn. lia.
    - rewrite limit_trailing_spec by exact Hc. apply take_nil. }
  split; [exact Hplan|]. split.
  - unfold _render_diff_block. rewrite Hplan. reflexivity.
  - vm_compute. reflexivity.
Qed.

(** The theorem at [x = ["a"; "b"]], width 60 and window 2. *)
Lemma find_common_context_identity_witness :
  0 <= 2
  /\ _find_common_context [lit "a"; lit "b"] [lit "a"; lit "b"]
     = Some ([lit "a"; lit "b"], [], [], [], []).
Proof.
  split; [lia|].
  apply (find_common_context_identity [lit "a"; lit "b"] 60 2). lia.
Defined.

(** ** The context window at [context_lines = 0] and above it *)

(** The window holds for the trailing context from 0 on and for the
    leading context from 1 on: what is shown is the first, respectively
    the last, [context_lines] lines. *)
Lemma context_window_positive (context_lines : Z) (leading trailing : list str) :
  0 < context_lines ->
  (len leading > context_lines ->
     limit_leading context_lines leading
     = drop (Z.to_nat (len leading - context_lines)) leading
     /\ len (limit_leading context_lines leading) = context_lines)
  /\ (len trailing > context_lines ->
        limit_trailing context_lines trailing
        = take (Z.to_nat context_lines) trailing
        /\ len (limit_trailing context_lines trailing) = context_lines).
Proof.
  intros Hc. split; intros Hlen.
  - split; [apply limit_leading_pos, Hc|].
    rewrite len_limit_leading_pos by exact Hc. lia.
  - split; [apply limit_trailing_spec; lia|].
    rewrite len_limit_trailing by lia. lia.
Qed.

(** From 1 on, a larger window never shows fewer context lines. *)
Lemma context_window_monotone_positive (c c' : Z) (leading trailing : list str) :
  0 < c <= c' ->
  len (limit_leading c leading) <= len (limit_leading c' leading)
  /\ len (limit_trailing c trailing) <= len (limit_trailing c' trailing).
Proof.
  intros Hc. rewrite !len_limit_leading_pos, !len_limit_trailing by lia. lia.
Qed.

(** From 1 on, the output has at most [2 * context_lines + 10] lines. *)
Lemma render_diff_block_bound_positive (old_str new_str : str)
    (max_width context_lines : Z) :
  0 < context_lines ->
  exists lines,
    _render_diff_block old_str new_str max_width context_lines = Some lines
    /\ len lines <= 2 * context_lines + 10.
Proof.
  intros Hc.
  destruct (render_plan_spec old_str new_str context_lines)
    as (lead & dels & adds & trail & _ & Hplan).
  unfold _render_diff_block. rewrite Hplan. eexists. split; [reflexivity|].
  rewrite render_lines_blocks. cbn [leading trailing old_changed new_changed].
  pose proof (len_limit_leading_pos context_lines lead Hc) as Hl.
  pose proof (len_limit_trailing context_lines trail ltac:(lia)) as Ht.
  unfold len in *.
  rewrite !length_app, !length_map, !length_take.
  do 2 case_bool_decide; cbn [length]; unfold max_diff_lines; lia.
Qed.

(** C6 (context-window truncation), at [context_lines = 0].  The old
    text ["a\nb"] and the new text ["a\nc"] have one common leading
    line; with a window of 0 the leading context has more lines than the
    window, and [_render_diff_block] still shows that line. *)
Theorem leading_context_kept_at_zero_window :
  let old_str := unlines [lit "a"; lit "b"] in
  let new_str := unlines [lit "a"; lit "c"] in
  _find_common_context (split_nl old_str) (split_nl new_str)
  = Some ([lit "a"], [lit "b"], [lit "c"], [], [])
  /\ render_plan old_str new_str 0
     = Some (Plan [lit "a"] [lit "b"] [lit "c"] [])
  /\ _render_diff_block old_str new_str default_max_width 0
     = Some [lit "[dim]  a[/dim]"; lit "[bold red]- b[/bold red]";
             lit "[bold green]+ c[/bold green]"].
Proof. repeat split; vm_compute; reflexivity. Qed.

(** C9 (context-window monotonicity), from [context_lines = 0] to 1.
    The old text ["a\nb\nc\nx"] and the new text ["a\nb\nc\ny"] have
    three common leading lines; a window of 0 shows all three, a window
    of 1 shows one. *)
Theorem leading_context_shrinks_above_zero_window :
  let old_str := unlines [lit "a"; lit "b"; lit "c"; lit "x"] in
  let new_str := unlines [lit "a"; lit "b"; lit "c"; lit "y"] in
  render_plan old_str new_str 0
  = Some (Plan [lit "a"; lit "b"; lit "c"] [lit "x"] [lit "y"] [])
  /\ render_plan old_str new_str 1
     = Some (Plan [lit "c"] [lit "x"] [lit "y"] [])
  /\ _render_diff_block old_str new_str default_max_width 0
     = Some [lit "[dim]  a[/dim]"; lit "[dim]  b[/dim]";
             lit "[dim]  c[/dim]"; lit "[bold red]- x[/bold red]";
             lit "[bold green]+ y[/bold green]"]
  /\ _render_diff_block old_str new_str default_max_width 1
     = Some [lit "[dim]  c[/dim]"; lit "[bold red]- x[/bold red]";
             lit "[bold green]+ y[/bold green]"].
Proof. repeat split; vm_compute; reflexivity. Qed.

(** C10 (bounded output), at [context_lines = 0].  For a text of eleven
    empty lines against itself and a window of 0, [_render_diff_block]
    returns eleven display lines, more than [2 * 0 + 10]. *)
Theorem render_diff_block_unbounded_at_zero_window :
  let text := replicate 10 NL in
  _render_diff_block text text default_max_width 0
  = Some (replicate 11 (lit "[dim]  [/dim]"))
  /\ 2 * 0 + 10 < len (replicate 11 (lit "[dim]  [/dim]")).
Proof. split; vm_compute; reflexivity. Qed.

(** ** Line truncation *)

Lemma elem_of_lstrip (c : char) (text : str) : c ∈ lstrip text -> c ∈ text.
Proof.
  induction text as [|d rest IH]; cbn; [trivial|].
  destruct (isspace d); [|trivial]. intros Hin. right. apply IH, Hin.
Qed.

Lemma elem_of_strip (c : char) (text : str) : c ∈ strip text -> c ∈ text.
Proof.
  unfold strip, rstrip. intros Hin.
  apply list_elem_of_In, in_rev, list_elem_of_In in Hin.
  apply elem_of_lstrip in Hin.
  apply list_elem_of_In, in_rev, list_elem_of_In in Hin.
  apply elem_of_lstrip, Hin.
Qed.

Lemma replace_nl_space_no_newline (text : str) : NL ∉ replace_nl_space text.
Proof.
  unfold replace_nl_space. intros Hin.
  apply list_elem_of_In, in_map_iff in Hin. destruct Hin as (c & Hc & _).
  case_bool_decide; [discriminate Hc | congruence].
Qed.

(** C8 (line truncation rule), as the code has it.  Let [cleaned] be
    the line with every newline replaced by a space and the white space
    at both ends stripped; it holds no newline.  For a width of at
    least 1: if [cleaned] is longer than the width, [_truncate] returns
    its first [width - 1] characters followed by the one-character
    ellipsis, [width] characters in all; otherwise it returns
    [cleaned]. *)
Theorem truncate_rule (text : str) (max_len : Z) :
  1 <= max_len ->
  let cleaned := strip (replace_nl_space text) in
  (NL ∉ cleaned)
  /\ len ELLIPSIS = 1
  /\ (len cleaned > max_len ->
        _truncate text max_len
        = take (Z.to_nat (max_len - 1)) cleaned ++ ELLIPSIS
        /\ len (_truncate text max_len) = max_len)
  /\ (len cleaned <= max_len -> _truncate text max_len = cleaned).
Proof.
  intros Hw cleaned. split.
  { intros Hin. apply elem_of_strip in Hin.
    exact (replace_nl_space_no_newline text Hin). }
  split; [reflexivity|].
  unfold _truncate. fold cleaned. split; intros Hlen.
  - rewrite bool_decide_eq_false_2 by lia.
    rewrite slice_to by lia. split; [reflexivity|].
    rewrite len_app. unfold len in *. rewrite length_take. cbn. lia.
  - rewrite bool_decide_eq_true_2 by lia. reflexivity.
Qed.

(** The rule at ["  hello world  "] and width 8, and at ["hi"]. *)
Lemma truncate_rule_witness :
  1 <= 8
  /\ _truncate (lit "  hello world  ") 8 = lit "hello w" ++ ELLIPSIS
  /\ _truncate (lit "hi") 8 = lit "hi".
Proof.
  split; [lia|].
  pose proof (truncate_rule (lit "  hello world  ") 8 ltac:(lia)) as H1.
  pose proof (truncate_rule (lit "hi") 8 ltac:(lia)) as H2.
  split.
  - apply H1. vm_compute. reflexivity.
  - apply H2. vm_compute. discriminate.
Defined.

(** C8 as stated fails in three ways.  A line without newlines and not
    longer than the width is not returned unchanged when it starts with
    a space; a newline inside a line is replaced by a space, not
    removed; and for a width of 0 the result of truncating ["ab"] has
    two characters. *)
Lemma truncate_not_as_stated :
  ((NL ∉ lit " a") /\ len (lit " a") <= 5
   /\ _truncate (lit " a") 5 = lit "a" /\ _truncate (lit " a") 5 <> lit " a")
  /\ (len (lit "ab") <= 5
      /\ _truncate (lit "a" ++ [NL] ++ lit "b") 5 = lit "a b"
      /\ _truncate (lit "a" ++ [NL] ++ lit "b") 5 <> lit "ab")
  /\ (len (lit "ab") > 0
      /\ _truncate (lit "ab") 0 = lit "a" ++ ELLIPSIS
      /\ len (_truncate (lit "ab") 0) <> 0).
Proof.
  repeat split; try (vm_compute; congruence).
  intros Hin. vm_compute in Hin.
  repeat (apply elem_of_cons in Hin as [Hin|Hin]; [discriminate Hin|]).
  apply elem_of_nil in Hin. exact Hin.
Qed.

(** * Further properties *)

(** ** White space stripping *)

Lemma length_lstrip (text : str) : (length (lstrip text) <= length text)%nat.
Proof.
  induction text as [|c rest IH]; cbn; [lia|].
  destruct (isspace c); cbn; lia.
Qed.

Lemma lstrip_fixed (text : str) : lstrip text = text <-> lstripped text.
Proof.
  destruct text as [|c rest]; cbn; [tauto|].
  destruct (isspace c) eqn:Hc; split; try done.
  intros Heq. pose proof (length_lstrip rest) as Hlen.
  rewrite Heq in Hlen. cbn in Hlen. lia.
Qed.

Lemma lstripped_lstrip (text : str) : lstripped (lstrip text).
Proof.
  induction text as [|c rest IH]; cbn; [exact I|].
  destruct (isspace c) eqn:Hc; [exact IH | exact Hc].
Qed.

Lemma lstrip_suffix (text : str) : exists k, text = k ++ lstrip text.
Proof.
  induction text as [|c rest (k & IH)]; cbn; [exists []; reflexivity|].
  destruct (isspace c).
  - exists (c :: k). cbn. f_equal. exact IH.
  - exists []. reflexivity.
Qed.

Lemma rstrip_prefix (text : str) : exists k, text = rstrip text ++ k.
Proof.
  unfold rstrip. destruct (lstrip_suffix (rev text)) as (k & Hk).
  exists (rev k). rewrite <- rev_app_distr, <- Hk, rev_involutive.
  reflexivity.
Qed.

Lemma rstrip_fixed (text : str) : rstrip text = text <-> lstripped (rev text).
Proof.
  unfold rstrip. rewrite <- lstrip_fixed. split; intros Heq.
  - rewrite <- Heq at 2. rewrite rev_involutive. reflexivity.
  - rewrite Heq. apply rev_involutive.
Qed.

Lemma lstripped_prefix (text k : str) :
  lstripped (text ++ k) -> lstripped text.
Proof. destruct text; [intros _; exact I | trivial]. Qed.

Lemma stripped_strip (text : str) : stripped (strip text).
Proof.
  unfold strip. split.
  - destruct (rstrip_prefix (lstrip text)) as (k & Hk).
    apply (lstripped_prefix _ k). rewrite <- Hk. apply lstripped_lstrip.
  - unfold rstrip. rewrite rev_involutive. apply lstripped_lstrip.
Qed.

Lemma strip_stripped (text : str) : stripped text -> strip text = text.
Proof.
  intros [Hl Hr]. unfold strip.
  apply lstrip_fixed in Hl. rewrite Hl. apply rstrip_fixed, Hr.
Qed.

Lemma replace_nl_space_id (text : str) :
  NL ∉ text -> replace_nl_space text = text.
Proof.
  unfold replace_nl_space. induction text as [|c rest IH]; intros Hnl;
    [reflexivity|].
  apply not_elem_of_cons in Hnl as [Hc Hrest]. cbn.
  rewrite bool_decide_eq_false_2 by congruence. f_equal. apply IH, Hrest.
Qed.

(** A text without newlines and without white space at its ends is left
    alone by the cleaning step of [_truncate]. *)
Lemma clean_id (text : str) :
  NL ∉ text -> stripped text -> strip (replace_nl_space text) = text.
Proof.
  intros Hnl Hs. rewrite replace_nl_space_id by exact Hnl.
  apply strip_stripped, Hs.
Qed.

Lemma clean_no_newline (text : str) : NL ∉ strip (replace_nl_space text).
Proof.
  intros Hin. apply elem_of_strip in Hin.
  exact (replace_nl_space_no_newline text Hin).
Qed.

(** The cut text followed by the ellipsis is again clean. *)
Lemma cut_ellipsis_clean (cleaned : str) (k : nat) :
  NL ∉ cleaned -> stripped cleaned ->
  (NL ∉ take k cleaned ++ ELLIPSIS) /\ stripped (take k cleaned ++ ELLIPSIS).
Proof.
  intros Hnl [Hl _]. split.
  - rewrite elem_of_app. intros [Hin|Hin].
    + apply Hnl. apply (subseteq_take k), Hin.
    + apply list_elem_of_singleton in Hin. discriminate Hin.
  - split.
    + destruct cleaned as [|c rest]; [rewrite take_nil; reflexivity|].
      destruct k; [reflexivity | exact Hl].
    + unfold ELLIPSIS. rewrite rev_app_distr. reflexivity.
Qed.

Lemma slice_to_is_take {A} (l : list A) (n : Z) :
  exists k, slice l None (Some n) = take k l.
Proof. unfold slice. cbn. rewrite drop_0. eexists. reflexivity. Qed.

(** The two cases of [_truncate] for a width of at least 1. *)
Lemma truncate_short (text : str) (max_len : Z) :
  len (strip (replace_nl_space text)) <= max_len ->
  _truncate text max_len = strip (replace_nl_space text).
Proof.
  intros Hlen. unfold _truncate. rewrite bool_decide_eq_true_2 by exact Hlen.
  reflexivity.
Qed.

Lemma truncate_long (text : str) (max_len : Z) :
  1 <= max_len -> max_len < len (strip (replace_nl_space text)) ->
  _truncate text max_len
  = take (Z.to_nat (max_len - 1)) (strip (replace_nl_space text)) ++ ELLIPSIS.
Proof.
  intros Hw Hlen. unfold _truncate. rewrite bool_decide_eq_false_2 by lia.
  rewrite slice_to by lia. reflexivity.
Qed.

(** ** [_truncate] *)

Lemma truncate_len_bound_lemma (text : str) (max_len : Z) :
  1 <= max_len -> len (_truncate text max_len) <= max_len.
Proof.
  intros Hw.
  destruct (Z.le_gt_cases (len (strip (replace_nl_space text))) max_len)
    as [Hshort|Hlong].
  - rewrite truncate_short by exact Hshort. exact Hshort.
  - rewrite truncate_long by lia. rewrite len_app. unfold len in *.
    rewrite length_take. cbn. lia.
Qed.

Lemma truncate_clean_lemma (text : str) (max_len : Z) :
  (NL ∉ _truncate text max_len) /\ stripped (_truncate text max_len).
Proof.
  unfold _truncate. case_bool_decide.
  - split; [apply clean_no_newline | apply stripped_strip].
  - destruct (slice_to_is_take (strip (replace_nl_space text)) (max_len - 1))
      as (k & ->).
    apply cut_ellipsis_clean; [apply clean_no_newline | apply stripped_strip].
Qed.

(** For a width of at least 1, the result of [_truncate] never has
    more characters than the width. *)
Theorem truncate_len_bound (text : str) (max_len : Z) :
  1 <= max_len -> len (_truncate text max_len) <= max_len.
Proof. apply truncate_len_bound_lemma. Qed.

Lemma truncate_len_bound_witness :
  1 <= 5 /\ len (_truncate (lit "abcdefgh") 5) <= 5.
Proof. split; [lia|]. apply truncate_len_bound. lia. Defined.

(** Whatever the width, the result of [_truncate] holds no newline and
    neither starts nor ends with white space. *)
Theorem truncate_clean (text : str) (max_len : Z) :
  (NL ∉ _truncate text max_len) /\ stripped (_truncate text max_len).
Proof. apply truncate_clean_lemma. Qed.

(** Truncating to a width and then to a smaller (or the same) width of
    at least 1 is truncating to the smaller width at once; in
    particular [_truncate] is idempotent. *)
Theorem truncate_truncate (text : str) (n m : Z) :
  1 <= n <= m -> _truncate (_truncate text m) n = _truncate text n.
Proof.
  intros Hnm. set (cleaned := strip (replace_nl_space text)).
  assert (Hclean : (NL ∉ cleaned) /\ stripped cleaned)
    by (split; [apply clean_no_newline | apply stripped_strip]).
  destruct Hclean as [Hnl Hs].
  destruct (Z.le_gt_cases (len cleaned) m) as [Hshort|Hlong].
  - rewrite (truncate_short text m) by exact Hshort. fold cleaned.
    unfold _truncate at 1. rewrite (clean_id cleaned) by assumption.
    reflexivity.
  - rewrite (truncate_long text m) by (subst cleaned; lia). fold cleaned.
    destruct (cut_ellipsis_clean cleaned (Z.to_nat (m - 1)) Hnl Hs)
      as [Hnl' Hs'].
    assert (Hlen : len (take (Z.to_nat (m - 1)) cleaned ++ ELLIPSIS) = m).
    { rewrite len_app. unfold len in *. rewrite length_take. cbn. lia. }
    rewrite (truncate_long text n) by (subst cleaned; lia). fold cleaned.
    pose proof (clean_id _ Hnl' Hs') as Hid.
    unfold _truncate at 1. rewrite Hid, Hlen.
    case_bool_decide as Hcmp.
    + replace n with m by lia. reflexivity.
    + rewrite slice_to by lia.
      rewrite take_app_le by (rewrite length_take; unfold len in *; lia).
      rewrite take_take. f_equal. f_equal. lia.
Qed.

Lemma truncate_truncate_witness :
  1 <= 3 <= 6
  /\ _truncate (_truncate (lit " abcdefgh ") 6) 3 = lit "ab" ++ ELLIPSIS.
Proof.
  split; [lia|].
  rewrite (truncate_truncate (lit " abcdefgh ") 3 6) by lia.
  vm_compute. reflexivity.
Defined.

(** ** Counting lines *)

Lemma split_nl_cons (text : str) :
  exists line lines, split_nl text = line :: lines.
Proof.
  induction text as [|c rest (line & lines & IH)]; cbn; [eauto|].
  case_bool_decide; [eauto|]. rewrite IH. eauto.
Qed.

Lemma count_nl_nonneg (text : str) : 0 <= count_nl text.
Proof. unfold count_nl. apply len_nonneg. Qed.

Lemma count_nl_app (a b : str) : count_nl (a ++ b) = count_nl a + count_nl b.
Proof. unfold count_nl, str. rewrite filter_app. apply len_app. Qed.

Lemma count_nl_zero (text : str) : NL ∉ text -> count_nl text = 0.
Proof.
  unfold count_nl, str. induction text as [|c rest IH]; intros Hnl;
    [reflexivity|].
  apply not_elem_of_cons in Hnl as [Hc Hrest].
  rewrite filter_cons_False by congruence. apply IH, Hrest.
Qed.

(** A text has one line more than it has newlines. *)
Lemma len_split_nl (text : str) : len (split_nl text) = count_nl text + 1.
Proof.
  unfold count_nl, len, str. induction text as [|c rest IH]; [reflexivity|].
  cbn [split_nl]. case_bool_decide as Hc.
  - rewrite filter_cons_True by exact Hc. cbn [length]. lia.
  - rewrite filter_cons_False by exact Hc.
    destruct (split_nl_cons rest) as (line & lines & Hsplit).
    rewrite Hsplit in *. cbn [length] in *. lia.
Qed.

Lemma format_uint_no_newline (d : Decimal.uint) :
  NL ∉ lit (NilEmpty.string_of_uint d).
Proof.
  unfold lit. induction d; cbn; [apply not_elem_of_nil|..];
    (apply not_elem_of_cons; split; [discriminate | exact IHd]).
Qed.

(** The decimal text of an integer holds no newline. *)
Lemma format_int_no_newline (n : Z) : NL ∉ format_int n.
Proof.
  unfold format_int, NilZero.string_of_int.
  assert (Hu : forall d, NL ∉ lit (NilZero.string_of_uint d)).
  { intros d. unfold NilZero.string_of_uint.
    destruct d; try apply format_uint_no_newline.
    unfold lit. cbn. apply not_elem_of_cons. split; [discriminate|].
    apply not_elem_of_nil. }
  destruct (Z.to_int n) as [d|d]; [apply Hu|].
  unfold lit. cbn. apply not_elem_of_cons. split; [discriminate|]. apply Hu.
Qed.

(** ** [_first_line] *)

Lemma first_line_lemma (text : str) (max_len : Z) :
  exists first remaining,
    _first_line text max_len = Some (first, remaining)
    /\ remaining = count_nl (strip text)
    /\ 0 <= remaining
    /\ (NL ∉ first)
    /\ stripped first
    /\ (1 <= max_len -> len first <= max_len).
Proof.
  unfold _first_line.
  pose proof (len_split_nl (strip text)) as Hlen.
  destruct (split_nl_cons (strip text)) as (line & lines & Hsplit).
  rewrite Hsplit in *. cbn.
  eexists _, _. split; [reflexivity|].
  split; [lia|]. split; [pose proof (count_nl_nonneg (strip text)); lia|].
  split; [apply truncate_clean_lemma|]. split; [apply truncate_clean_lemma|].
  apply truncate_len_bound_lemma.
Qed.

(** [_first_line] never raises: [lines[0]] always exists.  The first
    line returned holds no newline and no white space at its ends, and
    has at most [max_len] characters when [max_len] is at least 1; the
    count returned is the number of newlines of the stripped text, so
    it is never negative. *)
Theorem first_line_spec (text : str) (max_len : Z) :
  exists first remaining,
    _first_line text max_len = Some (first, remaining)
    /\ remaining = count_nl (strip text)
    /\ 0 <= remaining
    /\ (NL ∉ first)
    /\ stripped first
    /\ (1 <= max_len -> len first <= max_len).
Proof. apply first_line_lemma. Qed.

(** ** [_render_write_preview] *)

(** What the preview shows.  A line is shown as its truncated text
    between [[dim]  ] and [[/dim]], so a line without newline and
    without white space at its ends that fits the width is shown as it
    is.  With [total] the number of lines of the content: up to 9
    lines are all shown, in order; beyond that the preview is the first
    7 lines, one elision line [[dim]  ... (N lines elided) ...[/dim]]
    with [N] the decimal notation of the [total - 9 > 0] lines left
    out, and the last 2 lines, so that the lines shown and the lines
    counted add up to [total]. *)
Theorem render_write_preview_shape (content : str) (max_width : Z) :
  let content_lines := split_nl content in
  let total := len content_lines in
  (forall line,
     preview_line max_width line
     = lit "[dim]  " ++ _truncate line max_width ++ lit "[/dim]")
  /\ (forall line,
        NL ∉ line -> stripped line -> len line <= max_width ->
        preview_line max_width line = lit "[dim]  " ++ line ++ lit "[/dim]")
  /\ (total <= 9 ->
        _render_write_preview content max_width
        = map (preview_line max_width) content_lines)
  /\ (9 < total ->
        _render_write_preview content max_width
        = map (preview_line max_width) (take 7 content_lines)
          ++ [preview_marker (total - 9)]
          ++ map (preview_line max_width)
               (drop (Z.to_nat (total - 2)) content_lines)
        /\ 0 < total - 9
        /\ len (take 7 content_lines) + (total - 9)
           + len (drop (Z.to_nat (total - 2)) content_lines) = total
        /\ exists digits,
             preview_marker (total - 9)
             = lit "[dim]  ... (" ++ digits ++ lit " lines elided) ...[/dim]"
             /\ decimal_value digits = Some (total - 9)).
Proof.
  intros content_lines total. split; [reflexivity|]. split.
  { intros line Hnl Hs Hlen. unfold preview_line.
    rewrite truncate_short; rewrite clean_id by assumption;
      [reflexivity | exact Hlen]. }
  unfold _render_write_preview.
  fold content_lines. fold total. split; intros Htotal.
  - rewrite bool_decide_eq_true_2 by lia. rewrite for_append_map.
    reflexivity.
  - rewrite bool_decide_eq_false_2 by lia.
    rewrite slice_to by lia. rewrite (slice_last content_lines 2) by lia.
    fold total. rewrite !for_append_map. cbn [app].
    rewrite <- app_assoc. cbn [app].
    replace (total - 7 - 2) with (total - 9) by lia.
    split; [reflexivity|]. split; [lia|]. split.
    + subst total. unfold len in *. rewrite length_take, length_drop. lia.
    + exists (format_int (total - 9)).
      split; [reflexivity | apply decimal_value_format_int].
Qed.

(** The preview has one display line per line of the content, and
    never more than 10. *)
Theorem render_write_preview_length (content : str) (max_width : Z) :
  len (_render_write_preview content max_width)
  = Z.min (count_nl content + 1) 10.
Proof.
  rewrite <- len_split_nl. unfold _render_write_preview.
  case_bool_decide as Htotal.
  - rewrite for_append_map. cbn [app]. unfold len in *.
    rewrite length_map. lia.
  - rewrite slice_to by lia.
    rewrite (slice_last (split_nl content) 2) by lia.
    rewrite !for_append_map. cbn [app]. unfold len in *.
    rewrite !length_app, !length_map, length_take, length_drop.
    cbn [length]. lia.
Qed.

(** ** More on [_find_common_context] *)

(** The two window lengths do not depend on which list is called old. *)
Lemma common_windows_swap (old_lines new_lines : list str) (p s p' s' : Z) :
  common_prefix_len old_lines new_lines = Some p ->
  common_suffix_len old_lines new_lines p = Some s ->
  common_prefix_len new_lines old_lines = Some p' ->
  common_suffix_len new_lines old_lines p' = Some s' ->
  p' = p /\ s' = s.
Proof.
  intros Hp Hs Hp' Hs'.
  destruct (find_common_context_spec old_lines new_lines)
    as (p0 & s0 & Hp0 & Hs0 & ? & ? & Hsum & Hpsame & Hpstop & Hssame
        & Hsstop & _).
  rewrite Hp in Hp0. injection Hp0 as <-.
  rewrite Hs in Hs0. injection Hs0 as <-.
  destruct (find_common_context_spec new_lines old_lines)
    as (p0 & s0 & Hp0 & Hs0 & ? & ? & Hsum' & Hpsame' & Hpstop' & Hssame'
        & Hsstop' & _).
  rewrite Hp' in Hp0. injection Hp0 as <-.
  rewrite Hs' in Hs0. injection Hs0 as <-.
  rewrite (Z.min_comm (len new_lines)) in *.
  assert (p' = p) as ->.
  { destruct (Z.lt_trichotomy p' p) as [Hlt|[Heq|Hgt]]; [|exact Heq|].
    - exfalso. apply Hpstop'; [lia|]. symmetry. apply Hpsame. lia.
    - exfalso. apply Hpstop; [lia|]. symmetry. apply Hpsame'. lia. }
  split; [reflexivity|].
  destruct (Z.lt_trichotomy s' s) as [Hlt|[Heq|Hgt]]; [|exact Heq|].
  - exfalso. apply Hsstop'; [lia|]. symmetry. apply Hssame. lia.
  - exfalso. apply Hsstop; [lia|]. symmetry. apply Hssame'. lia.
Qed.

(** Swapping the two lists swaps the changed lines and keeps the
    context: if old against new gives the parts
    [(leading, old_changed, new_changed, trailing)], then new against
    old gives [(leading, new_changed, old_changed, trailing)]. *)
Theorem find_common_context_swap (old_lines new_lines : list str)
    (ld oc nc tr e : list str) :
  _find_common_context old_lines new_lines = Some (ld, oc, nc, tr, e) ->
  _find_common_context new_lines old_lines = Some (ld, nc, oc, tr, e).
Proof.
  intros Hres.
  destruct (find_common_context_spec old_lines new_lines)
    as (p & s & Hp & Hs & ? & ? & Hsum & Hpsame & _ & Hssame & _ & Hres0).
  rewrite Hres in Hres0. injection Hres0 as -> -> -> -> ->.
  destruct (find_common_context_spec new_lines old_lines)
    as (p' & s' & Hp' & Hs' & _ & _ & _ & _ & _ & _ & _ & Hres').
  destruct (common_windows_swap _ _ _ _ _ _ Hp Hs Hp' Hs') as [-> ->].
  rewrite Hres'.
  rewrite (prefix_agree_take old_lines new_lines p) by (assumption || lia).
  rewrite (suffix_agree_drop old_lines new_lines s) by (assumption || lia).
  reflexivity.
Qed.

Lemma find_common_context_swap_witness :
  _find_common_context [lit "a"; lit "X"; lit "c"] [lit "a"; lit "b"; lit "c"]
  = Some ([lit "a"], [lit "X"], [lit "b"], [lit "c"], []).
Proof.
  apply (find_common_context_swap [lit "a"; lit "b"; lit "c"]
           [lit "a"; lit "X"; lit "c"]).
  vm_compute. reflexivity.
Defined.

(** The changed regions are tight: when both are non-empty, their first
    lines differ and their last lines differ, so no common line is
    reported as changed at either end. *)
Theorem find_common_context_tight (old_lines new_lines : list str)
    (ld oc nc tr e : list str) :
  _find_common_context old_lines new_lines = Some (ld, oc, nc, tr, e) ->
  forall a b,
    (head oc = Some a -> head nc = Some b -> a <> b)
    /\ (last oc = Some a -> last nc = Some b -> a <> b).
Proof.
  intros Hres a b.
  destruct (find_common_context_spec old_lines new_lines)
    as (p & s & _ & _ & Hp & Hs & Hsum & _ & Hpstop & _ & Hsstop & Hres0).
  rewrite Hres in Hres0. injection Hres0 as -> -> -> -> ->.
  unfold len in *. split.
  - rewrite !head_lookup, !lookup_drop, !Nat.add_0_r.
    intros Ha Hb.
    pose proof (lookup_lt_Some _ _ _ Ha) as Hla.
    pose proof (lookup_lt_Some _ _ _ Hb) as Hlb.
    rewrite length_take in Hla, Hlb.
    rewrite lookup_take_lt in Ha, Hb by lia.
    intros ->. apply Hpstop; [lia|].
    rewrite !getitem_nonneg by (unfold len; lia). congruence.
  - rewrite !last_lookup, !lookup_drop, !length_drop, !length_take.
    intros Ha Hb.
    pose proof (lookup_lt_Some _ _ _ Ha) as Hla.
    pose proof (lookup_lt_Some _ _ _ Hb) as Hlb.
    rewrite length_take in Hla, Hlb.
    rewrite lookup_take_lt in Ha, Hb by lia.
    intros ->. apply Hsstop; [lia|].
    rewrite !getitem_neg by (unfold len; lia). unfold len.
    replace (Z.to_nat (Z.of_nat (length old_lines) + - (s + 1)))
      with (Z.to_nat p
            + Init.Nat.pred
                (Init.Nat.min (Z.to_nat (Z.of_nat (length old_lines) - s))
                   (length old_lines) - Z.to_nat p))%nat by lia.
    replace (Z.to_nat (Z.of_nat (length new_lines) + - (s + 1)))
      with (Z.to_nat p
            + Init.Nat.pred
                (Init.Nat.min (Z.to_nat (Z.of_nat (length new_lines) - s))
                   (length new_lines) - Z.to_nat p))%nat by lia.
    congruence.
Qed.

Lemma find_common_context_tight_witness :
  _find_common_context [lit "a"; lit "b"; lit "c"] [lit "a"; lit "X"; lit "c"]
  = Some ([lit "a"], [lit "b"], [lit "X"], [lit "c"], [])
  /\ lit "b" <> lit "X".
Proof.
  assert (H : _find_common_context [lit "a"; lit "b"; lit "c"]
                [lit "a"; lit "X"; lit "c"]
              = Some ([lit "a"], [lit "b"], [lit "X"], [lit "c"], []))
    by (vm_compute; reflexivity).
  split; [exact H|].
  apply (find_common_context_tight _ _ _ _ _ _ _ H (lit "b") (lit "X"));
    reflexivity.
Defined.

(** No changed line is reported on either side exactly when the two
    lists are equal. *)
Theorem find_common_context_unchanged_iff (old_lines new_lines : list str) :
  (exists ld tr,
     _find_common_context old_lines new_lines = Some (ld, [], [], tr, []))
  <-> old_lines = new_lines.
Proof.
  split.
  - intros (ld & tr & Hres).
    destruct (find_common_context_spec old_lines new_lines)
      as (p & s & _ & _ & Hp & Hs & Hsum & Hpsame & _ & Hssame & _ & Hres0).
    rewrite Hres in Hres0. injection Hres0 as Hld Hoc Hnc Htr.
    rewrite <- (take_drop (Z.to_nat (len old_lines - s)) old_lines).
    rewrite <- (take_drop (Z.to_nat (len new_lines - s)) new_lines).
    rewrite <- (take_drop_take old_lines (Z.to_nat p)
                  (Z.to_nat (len old_lines - s))) by lia.
    rewrite <- (take_drop_take new_lines (Z.to_nat p)
                  (Z.to_nat (len new_lines - s))) by lia.
    rewrite <- Hoc, <- Hnc.
    rewrite (prefix_agree_take old_lines new_lines p) by (assumption || lia).
    rewrite (suffix_agree_drop old_lines new_lines s) by (assumption || lia).
    reflexivity.
  - intros <-. exists old_lines, []. apply find_common_context_same.
Qed.

(** ** Session ids *)

Lemma rsplit1_absent (sep : char) (text : str) :
  sep ∉ text -> rsplit1 sep text = [text].
Proof.
  induction text as [|c rest IH]; intros Hsep; [reflexivity|].
  apply not_elem_of_cons in Hsep as [Hc Hrest]. cbn.
  rewrite (IH Hrest). rewrite bool_decide_eq_false_2 by congruence.
  reflexivity.
Qed.

(** [rsplit1] splits at the last separator. *)
Lemma rsplit1_last (sep : char) (before after : str) :
  sep ∉ after -> rsplit1 sep (before ++ sep :: after) = [before; after].
Proof.
  intros Hsep. induction before as [|c rest IH]; cbn.
  - rewrite (rsplit1_absent sep after Hsep).
    rewrite bool_decide_eq_true_2 by reflexivity. reflexivity.
  - rewrite IH. reflexivity.
Qed.

(** A text that holds a separator has a last one. *)
Lemma last_separator (sep : char) (text : str) :
  sep ∈ text ->
  exists before after, text = before ++ sep :: after /\ sep ∉ after.
Proof.
  induction text as [|c rest IH]; intros Hin.
  - apply elem_of_nil in Hin. destruct Hin.
  - destruct (decide (sep ∈ rest)) as [Hrest|Hrest].
    + destruct (IH Hrest) as (before & after & -> & Hafter).
      exists (c :: before), after. split; [reflexivity | exact Hafter].
    + apply elem_of_cons in Hin as [->|Hin]; [|contradiction].
      exists [], rest. split; [reflexivity | exact Hrest].
Qed.

Lemma split_at_last_unique (sep : char) (b1 a1 b2 a2 : str) :
  sep ∉ a1 -> sep ∉ a2 -> b1 ++ sep :: a1 = b2 ++ sep :: a2 ->
  b1 = b2 /\ a1 = a2.
Proof.
  intros H1 H2 Heq.
  pose proof (rsplit1_last sep b1 a1 H1) as E1.
  pose proof (rsplit1_last sep b2 a2 H2) as E2.
  rewrite Heq in E1. rewrite E1 in E2. injection E2 as -> ->. done.
Qed.

Lemma parse_agent_spec_lemma (session_id : str) :
  exists r,
    _parse_agent_from_session_id session_id = Some r
    /\ forall name,
         r = Some name
         <-> exists before,
               session_id = before ++ UNDERSCORE :: name
               /\ (UNDERSCORE ∉ name) /\ COLON ∈ name.
Proof.
  unfold _parse_agent_from_session_id, contains.
  destruct (decide (UNDERSCORE ∈ session_id)) as [Hin|Hout].
  - destruct (last_separator _ _ Hin) as (before & after & -> & Hafter).
    rewrite bool_decide_eq_false_2 by (destruct before; discriminate).
    rewrite (bool_decide_eq_true_2 _ Hin). cbn [orb negb].
    rewrite (rsplit1_last _ _ _ Hafter).
    rewrite (bool_decide_eq_true_2 (len [before; after] = 2)) by reflexivity.
    change (getitem [before; after] 1) with (Some after).
    cbn [mbind option_bind]. case_bool_decide as Hcolon.
    + exists (Some after). split; [reflexivity|]. intros name. split.
      * intros [= <-]. eauto.
      * intros (before' & Heq & Hname & _).
        destruct (split_at_last_unique _ _ _ _ _ Hafter Hname Heq)
          as [_ ->]. reflexivity.
    + exists None. split; [reflexivity|]. intros name. split; [discriminate|].
      intros (before' & Heq & Hname & Hc).
      destruct (split_at_last_unique _ _ _ _ _ Hafter Hname Heq) as [_ ->].
      contradiction.
  - rewrite (bool_decide_eq_false_2 _ Hout). cbn [negb]. rewrite orb_true_r.
    exists None. split; [reflexivity|]. intros name. split; [discriminate|].
    intros (before & -> & _). exfalso. apply Hout.
    apply elem_of_app. right. left.
Qed.

(** [_parse_agent_from_session_id] never raises, and it returns a name
    exactly when the session id ends with an underscore followed by
    that name, where the name holds a colon and no underscore; in every
    other case it returns [None]. *)
Theorem parse_agent_from_session_id_spec (session_id : str) :
  exists r,
    _parse_agent_from_session_id session_id = Some r
    /\ forall name,
         r = Some name
         <-> exists before,
               session_id = before ++ UNDERSCORE :: name
               /\ (UNDERSCORE ∉ name) /\ COLON ∈ name.
Proof. apply parse_agent_spec_lemma. Qed.

(** The session part of [ToolContext.from_data] never raises.  A
    context is a sub-agent's exactly when its session id holds an
    underscore and does not start with ["session_"], and exactly then
    it has an agent name: the text after the last underscore.  Whenever
    [_parse_agent_from_session_id] finds a name in an id that does not
    start with ["session_"], [from_data] finds the same name. *)
Theorem from_data_session_spec (session_id : str) :
  exists sub name,
    from_data_session session_id = Some (sub, name)
    /\ (sub = true
        <-> UNDERSCORE ∈ session_id
            /\ startswith (lit "session_") session_id = false)
    /\ (sub = true <-> is_Some name)
    /\ (forall agent,
          name = Some agent ->
          exists before,
            session_id = before ++ UNDERSCORE :: agent
            /\ UNDERSCORE ∉ agent)
    /\ (forall agent,
          _parse_agent_from_session_id session_id = Some (Some agent) ->
          startswith (lit "session_") session_id = false ->
          name = Some agent).
Proof.
  unfold from_data_session, contains.
  destruct (decide (UNDERSCORE ∈ session_id)) as [Hin|Hout].
  - rewrite (bool_decide_eq_true_2 _ Hin). cbn [andb].
    destruct (last_separator _ _ Hin) as (before & after & -> & Hafter).
    destruct (startswith (lit "session_") (before ++ UNDERSCORE :: after))
      eqn:Hstart; cbn [negb].
    + exists false, None. split; [reflexivity|].
      split; [split; [discriminate | intros [_ ?]; discriminate]|].
      split; [split; [discriminate | intros [? ?]; discriminate]|].
      split; [discriminate|]. intros agent _ ?. discriminate.
    + rewrite (rsplit1_last _ _ _ Hafter).
      rewrite (bool_decide_eq_true_2 (len [before; after] = 2))
        by reflexivity.
      change (getitem [before; after] 1) with (Some after).
      cbn [mbind option_bind]. exists true, (Some after).
      split; [reflexivity|].
      split; [tauto|]. split; [split; eauto|].
      split; [intros agent [= <-]; eauto|].
      intros agent Hparse _.
      destruct (parse_agent_spec_lemma (before ++ UNDERSCORE :: after))
        as (r & Hr & Hiff).
      rewrite Hparse in Hr. injection Hr as <-.
      destruct (proj1 (Hiff agent) eq_refl) as (before' & Heq' & Hname & _).
      destruct (split_at_last_unique _ _ _ _ _ Hafter Hname Heq') as [_ ->].
      reflexivity.
  - rewrite (bool_decide_eq_false_2 _ Hout). cbn [andb].
    exists false, None. split; [reflexivity|].
    split; [split; [discriminate | intros [? _]; contradiction]|].
    split; [split; [discriminate | intros [? ?]; discriminate]|].
    split; [discriminate|]. intros agent Hparse _.
    destruct (parse_agent_spec_lemma session_id) as (r & Hr & Hiff).
    rewrite Hparse in Hr. injection Hr as <-.
    destruct (proj1 (Hiff agent) eq_refl) as (before' & -> & _).
    exfalso. apply Hout. apply elem_of_app. right. left.
Qed.

(** ** Display lines of the hooks *)

Lemma join_empty_app (a b : list str) : join [] (a ++ b) = join [] a ++ join [] b.
Proof.
  induction a as [|x a IH]; [reflexivity|].
  destruct a as [|y a].
  - cbn [app]. destruct b as [|z b]; cbn; [rewrite app_nil_r|]; reflexivity.
  - change (join [] ((x :: y :: a) ++ b))
      with (x ++ [] ++ join [] ((y :: a) ++ b)).
    rewrite IH. cbn. rewrite app_assoc. reflexivity.
Qed.

(** A display line is the indentation prefix of its context followed by
    the line the same call or result gets in the main agent: the
    sub-agent fields change nothing but the prefix, which is the one
    [_get_indent_prefix] puts before the lines of a diff or preview. *)
Theorem format_line_indent_prefix {value : Type} (config : Config)
    (ctx : ToolContext value) (content status : str) :
  let main :=
    Build_ToolContext value (tool_name ctx) (tool_input ctx) (result ctx)
      (session_id ctx) false (agent_name ctx) (phase ctx) in
  _format_line config ctx content status
  = _get_indent_prefix config ctx ++ _format_line config main content status
  /\ _get_indent_prefix config main = [].
Proof.
  intros main. split; [|reflexivity].
  unfold _format_line, _get_indent_prefix. subst main. cbn [is_sub_agent
    phase tool_name agent_name_set agent_name_text agent_name andb].
  change (agent_name_set
            {| tool_name := tool_name ctx; tool_input := tool_input ctx;
               result := result ctx; session_id := session_id ctx;
               is_sub_agent := false; agent_name := agent_name ctx;
               phase := phase ctx |})
    with (agent_name_set ctx).
  destruct (is_sub_agent ctx && indent_sub_agents config); [|reflexivity].
  destruct (show_agent_name config && agent_name_set ctx);
    repeat case_bool_decide; rewrite ?join_empty_app; cbn [join app];
    rewrite ?app_nil_r, <- ?app_assoc; reflexivity.
Qed.

(** ** [_format_compact_number] *)

Lemma rstrip_char_other (c d : char) (text : str) :
  d <> c -> rstrip_char c (text ++ [d]) = text ++ [d].
Proof.
  intros Hne. unfold rstrip_char. rewrite rev_app_distr. cbn.
  rewrite bool_decide_eq_false_2 by exact Hne.
  change (d :: rev text) with (rev [d] ++ rev text).
  rewrite <- rev_app_distr. apply rev_involutive.
Qed.

(** From one million on, [_format_compact_number] raises exactly when
    the float division does, and otherwise returns the formatted
    quotient followed by two letters M: the text being stripped
    already ends with M, so neither trailing zeros nor a trailing dot
    are ever removed, and a second M is appended. *)
Theorem format_compact_number_millions
    (format_fixed : Z -> Z -> Z -> option str) (n : Z) :
  1000000 <= n ->
  _format_compact_number format_fixed n
  = (fun millions => millions ++ lit "MM") <$> format_fixed n 1000000 1.
Proof.
  intros Hn. unfold _format_compact_number.
  rewrite !bool_decide_eq_true_2 by lia.
  destruct (format_fixed n 1000000 1) as [millions|]; [|reflexivity].
  cbn [mbind option_bind fmap option_fmap option_map].
  change (lit "M") with [77%N]. rewrite !rstrip_char_other by discriminate.
  rewrite <- app_assoc. reflexivity.
Qed.

Lemma format_compact_number_millions_witness :
  1000000 <= 2000000
  /\ _format_compact_number (fun _ _ _ => Some (lit "2.0")) 2000000
     = Some (lit "2.0MM").
Proof.
  split; [lia|].
  apply (format_compact_number_millions (fun _ _ _ => Some (lit "2.0"))).
  lia.
Defined.

(** ** One row per display line *)

Lemma no_newline_app (a b : str) : NL ∉ a -> NL ∉ b -> NL ∉ a ++ b.
Proof. intros Ha Hb Hin. apply elem_of_app in Hin as [?|?]; auto. Qed.

Lemma lit_no_newline_check (s : String.string) :
  forallb (fun c => negb (N.eqb c NL)) (lit s) = true -> NL ∉ lit s.
Proof.
  generalize (lit s) as l. clear s.
  induction l as [|c l IH]; cbn; intros Hall; [apply not_elem_of_nil|].
  apply andb_prop in Hall as [Hc Hl].
  apply not_elem_of_cons. split; [|apply IH, Hl].
  intros <-. discriminate Hc.
Qed.

(** Proves that a concatenation of literals, truncated texts and
    formatted integers holds no newline. *)
Ltac no_newline :=
  repeat first
    [ apply no_newline_app
    | apply truncate_clean_lemma
    | apply format_int_no_newline
    | apply lit_no_newline_check; reflexivity
    | assumption ].

(** No display line returned by [_render_diff_block] holds a newline:
    each element of the list is one row of the terminal. *)
Theorem render_diff_block_one_row_each (old_str new_str : str)
    (max_width context_lines : Z) :
  exists lines,
    _render_diff_block old_str new_str max_width context_lines = Some lines
    /\ forall line, line ∈ lines -> NL ∉ line.
Proof.
  destruct (render_plan_spec old_str new_str context_lines)
    as (lead & dels & adds & trail & _ & Hplan).
  unfold _render_diff_block. rewrite Hplan. eexists. split; [reflexivity|].
  intros line. rewrite render_lines_blocks. rewrite !elem_of_app.
  intros [Hin|[[Hin|Hin]|[[Hin|Hin]|Hin]]].
  - apply list_elem_of_In, in_map_iff in Hin as (x & <- & _).
    unfold context_line. no_newline.
  - apply list_elem_of_In, in_map_iff in Hin as (x & <- & _).
    unfold deletion_line, _format_diff_line. no_newline.
  - case_bool_decide; [|apply elem_of_nil in Hin; destruct Hin].
    apply list_elem_of_singleton in Hin as ->.
    unfold deletion_marker. no_newline.
  - apply list_elem_of_In, in_map_iff in Hin as (x & <- & _).
    unfold addition_line, _format_diff_line. no_newline.
  - case_bool_decide; [|apply elem_of_nil in Hin; destruct Hin].
    apply list_elem_of_singleton in Hin as ->.
    unfold addition_marker. no_newline.
  - apply list_elem_of_In, in_map_iff in Hin as (x & <- & _).
    unfold context_line. no_newline.
Qed.

(** ** The result line of [_render_bash] *)

Lemma count_nl_join_rows (pieces : list str) :
  Forall (fun piece => NL ∉ piece) pieces -> pieces <> [] ->
  count_nl (join ([NL] ++ lit "  ") pieces) = len pieces - 1.
Proof.
  induction 1 as [|piece rest Hpiece Hrest IH]; [done|]. intros _.
  destruct rest as [|piece' rest'].
  - cbn [join]. rewrite count_nl_zero by exact Hpiece. reflexivity.
  - change (join ([NL] ++ lit "  ") (piece :: piece' :: rest'))
      with (piece ++ ([NL] ++ lit "  ")
            ++ join ([NL] ++ lit "  ") (piece' :: rest')).
    rewrite !count_nl_app, IH by discriminate.
    rewrite (count_nl_zero piece) by exact Hpiece.
    unfold len. cbn [length]. change (count_nl [NL]) with 1.
    change (count_nl (lit "  ")) with 0. lia.
Qed.

(** For a return code within the digit limit of the integer
    formatting, the result phase of [_render_bash] does not raise.  The
    status is ["fail"] exactly for a non-zero return code, and then the
    summary is a single row; for return code 0 the summary has one row
    per line of the stripped output up to three, plus one row counting
    the others: at most four rows in all. *)
Theorem render_bash_result_rows (config : Config) (rc : Z)
    (stdout stderr : str) :
  Z.abs rc < int_str_bound ->
  exists content status,
    _render_bash_result config rc stdout stderr = Some (content, status)
    /\ (status = lit "fail" <-> rc <> 0)
    /\ (rc <> 0 -> count_nl content = 0)
    /\ (rc = 0 ->
          count_nl content + 1 = Z.min (count_nl (strip stdout) + 1) 4)
    /\ count_nl content + 1 <= 4.
Proof.
  intros Hbound. unfold _render_bash_result. case_bool_decide as Hrc.
  - match goal with
    | |- context [_first_line ?err ?w] =>
        destruct (first_line_lemma err w)
          as (first & remaining & -> & _ & _ & Hnl & _)
    end.
    unfold format_int_checked.
    rewrite (bool_decide_eq_true_2 _ Hbound).
    cbn [mbind option_bind]. eexists _, _. split; [reflexivity|].
    split; [tauto|].
    assert (Hzero : count_nl (lit "exit " ++ format_int rc ++ lit ": "
                              ++ first) = 0)
      by (apply count_nl_zero; no_newline).
    split; [intros _; exact Hzero|]. split; [lia|]. lia.
  - assert (rc = 0) as -> by (destruct (decide (rc = 0)); tauto).
    pose proof (count_nl_nonneg (strip stdout)) as Hnn.
    case_bool_decide as Hout.
    + eexists _, _. split; [reflexivity|].
      split; [split; [discriminate | done]|]. split; [done|].
      rewrite Hout. split; [reflexivity | done].
    + pose proof (len_split_nl (strip stdout)) as Htotal.
      destruct (split_nl_cons (strip stdout)) as (line & lines & Hsplit).
      rewrite Hsplit in *. rewrite slice_to by lia.
      set (shown := take (Z.to_nat 3) (line :: lines)) in *.
      assert (Hrows :
        count_nl (join ([NL] ++ lit "  ")
                    (map (fun l => _truncate l (max_result_len config)) shown))
        = Z.min (len (line :: lines)) 3 - 1).
      { rewrite count_nl_join_rows.
        - unfold len. rewrite length_map. subst shown.
          rewrite length_take. lia.
        - apply Forall_map, Forall_forall. intros l _. cbn.
          apply truncate_clean_lemma.
        - subst shown. discriminate. }
      case_bool_decide as Hmore; eexists _, _; (split; [reflexivity|]);
        (split; [split; [discriminate | done]|]); (split; [done|]).
      * rewrite !count_nl_app, Hrows.
        rewrite (count_nl_zero (format_int _))
          by apply format_int_no_newline.
        change (count_nl [NL]) with 1.
        change (count_nl (lit "  (+")) with 0.
        change (count_nl (lit " more)")) with 0.
        split; [intros _|]; lia.
      * rewrite Hrows. split; [intros _|]; lia.
Qed.

(** The theorem at return code 2 with an error text of two lines. *)
Lemma render_bash_result_rows_witness :
  Z.abs 2 < int_str_bound
  /\ exists content,
       _render_bash_result
         {| enabled := true; max_param_len := 50; max_result_len := 60;
            indent_sub_agents := true; show_agent_name := true;
            show_thinking := true; show_token_usage := true |}
         2 (lit "out") (lit " oops" ++ [NL] ++ lit "more")
       = Some (content, lit "fail")
       /\ count_nl content = 0.
Proof.
  assert (Hbound : Z.abs 2 < int_str_bound) by (vm_compute; reflexivity).
  split; [exact Hbound|].
  destruct (render_bash_result_rows
              {| enabled := true; max_param_len := 50; max_result_len := 60;
                 indent_sub_agents := true; show_agent_name := true;
                 show_thinking := true; show_token_usage := true |}
              2 (lit "out") (lit " oops" ++ [NL] ++ lit "more") Hbound)
    as (content & status & Hres & Hstatus & Hfail & _).
  exists content. split.
  - rewrite Hres. f_equal. f_equal. apply Hstatus. discriminate.
  - apply Hfail. discriminate.
Defined.

(** Beyond the digit limit the f-string of the failure summary raises. *)
Lemma render_bash_result_raises (config : Config) (rc : Z)
    (stdout stderr : str) :
  int_str_bound <= Z.abs rc ->
  _render_bash_result config rc stdout stderr = None.
Proof.
  intros Hbig. unfold _render_bash_result.
  assert (Hpos : 0 < int_str_bound) by (vm_compute; reflexivity).
  rewrite bool_decide_eq_true_2 by lia.
  match goal with
  | |- context [_first_line ?err ?w] =>
      destruct (first_line_lemma err w) as (first & remaining & -> & _)
  end.
  unfold format_int_checked. rewrite bool_decide_eq_false_2 by lia.
  reflexivity.
Qed.
